(** * demucs.api: the separation orchestration layer

    A shallow embedding of [demucs/api.py]: the [Separator] class
    (configuration update, audio loading with backend fallback, tensor
    separation around an external application strategy) and [save_audio].

    Conventions of the embedding.
    - Python values that the API only stores and forwards are [pyval]s.
    - A call that can raise returns a [res]: [Ok v] or [Raise e].
    - torch tensors are nested lists over a scalar type with the float
      operations the code uses.  Statements are made for every scalar
      type; IEEE binary32 is the instance the code runs on, and exact
      reals extended with a not-a-number element are a second instance,
      without rounding.
    - Collaborators that live outside [api.py] ([get_model], [apply_model],
      [AudioFile.read], [torchaudio.load], [convert_audio], [prevent_clip])
      are parameters of the definitions that call them; each of them
      returns a [res], since each of them can raise.
    - Strings are byte strings; file names are ASCII text. *)

From Stdlib Require Import ZArith QArith Reals Lra List String Ascii.
From Stdlib Require Import Floats.SpecFloat.
From stdpp Require Import gmap strings list fin_maps pretty.

Local Open Scope string_scope.

(** ** Python values, exceptions and results *)

Module Py.

#[warnings="-register-all"] Inductive pyval : Type :=
  | PyNone
  | PyBool (b : bool)
  | PyInt (z : Z)
  | PyFloat (q : Q)
  | PyStr (s : string)
  | PyDict (d : gmap string pyval)
  | PyFunc (label : nat).

(** [value is not None] *)
Definition is_not_None (v : pyval) : bool :=
  match v with PyNone => false | _ => true end.

(** [callable(value)]: of the values modelled, only function objects. *)
Definition callable (v : pyval) : bool :=
  match v with PyFunc _ => true | _ => false end.

(** Exceptions that [api.py] raises, catches or lets through.
    [FileNotFoundError] and [CalledProcessError] carry the text of the
    error, [RuntimeError] carries [err.args]. *)
Inductive exn : Type :=
  | FileNotFoundError (text : string)
  | CalledProcessError (text : string)
  | RuntimeError (args : list string)
  | LoadAudioError (msg : string)
  | LoadModelError (msg : string)
  | ValueError (msg : string)
  | IndexError
  | TypeError
  | AttributeError (attr : string)
  | OtherException (name : string).

Inductive res (A : Type) : Type :=
  | Ok (a : A)
  | Raise (e : exn).
Arguments Ok {A} a.
Arguments Raise {A} e.

Definition bind {A B : Type} (r : res A) (k : A -> res B) : res B :=
  match r with
  | Ok a => k a
  | Raise e => Raise e
  end.

(** An insertion-ordered dict with string keys: [d[k] = v] overwrites the
    value of an existing key in place and appends a new key at the end. *)
Definition odict (V : Type) : Type := list (string * V).

Fixpoint odict_set {V : Type} (d : odict V) (k : string) (v : V) : odict V :=
  match d with
  | [] => [(k, v)]
  | (k', v') :: d' =>
      if String.eqb k k' then (k', v) :: d' else (k', v') :: odict_set d' k v
  end.

(** [dict(pairs)] *)
Definition dict_of_pairs {V : Type} (pairs : list (string * V)) : odict V :=
  fold_left (fun d kv => odict_set d (fst kv) (snd kv)) pairs [].

(** [zip(a, b)]: stops at the shorter argument. *)
Fixpoint zip {A B : Type} (a : list A) (b : list B) : list (A * B) :=
  match a, b with
  | x :: a', y :: b' => (x, y) :: zip a' b'
  | _, _ => []
  end.

Definition keys {V : Type} (d : odict V) : list string := map fst d.
Definition values {V : Type} (d : odict V) : list V := map snd d.

(** [sep.join(parts)] *)
Fixpoint join (sep : string) (parts : list string) : string :=
  match parts with
  | [] => EmptyString
  | [p] => p
  | p :: rest => p +:+ sep +:+ join sep rest
  end.

Definition newline : string := String (ascii_of_nat 10) EmptyString.

(** [s.lower()] on ASCII text: the letters [A] to [Z] are lowered and
    every other byte is kept.  On text that is not ASCII, [str.lower]
    lowers other letters as well. *)
Definition lower_ascii (c : ascii) : ascii :=
  let n := nat_of_ascii c in
  if (65 <=? n)%nat && (n <=? 90)%nat then ascii_of_nat (n + 32) else c.

Fixpoint lower (s : string) : string :=
  match s with
  | EmptyString => EmptyString
  | String c s' => String (lower_ascii c) (lower s')
  end.

(** The text is ASCII: every byte is below 128. *)
Definition ascii_only (s : string) : bool :=
  forallb (fun c => (nat_of_ascii c <? 128)%nat) (list_ascii_of_string s).

End Py.
Export Py.

Notation "x <- r ;; k" := (bind r (fun x => k))
  (at level 100, r at next level, right associativity).

(** ** Tensors

    The scalar operations of a float tensor, as an interface.  [api.py]
    uses subtraction, division, multiplication, addition, and, inside
    [Tensor.mean] and [Tensor.std], summation, division by an element
    count and square root. *)

Class Scalar (F : Type) : Type := {
  fzero : F;
  fadd : F -> F -> F;
  fsub : F -> F -> F;
  fmul : F -> F -> F;
  fdiv : F -> F -> F;
  fsqrt : F -> F;
  fof_nat : nat -> F
}.

(** The real number a scalar stands for, when it is a finite number. *)
Class Valued (F : Type) : Type := value : F -> option R.

Module Torch.
Section Tensor.
Context {F : Type} {SF : Scalar F}.

(** Shapes used by the API: [(samples)], [(channels, samples)],
    [(batch, channels, samples)], [(batch, sources, channels, samples)].
    A tensor is rectangular; the nested list of a two-dimensional tensor
    has one inner list per channel, and the length of the first one is
    the size of the second dimension.  A tensor without a channel is the
    empty list, which does not record the size of the second dimension:
    statements that depend on that size are made for tensors with at
    least one channel. *)
Definition Tensor1 : Type := list F.
Definition Tensor2 : Type := list Tensor1.
Definition Tensor3 : Type := list Tensor2.
Definition Tensor4 : Type := list Tensor3.

(** [t.shape[1]] of a two-dimensional tensor with at least one channel. *)
Definition shape1 (t : Tensor2) : nat :=
  match t with
  | [] => 0
  | row :: _ => length row
  end.

(** [t.sum()], evaluated from the left.  The order in which torch adds
    the elements is not fixed by its interface; with rounding, another
    order can change the last digits of the result. *)
Definition sum (t : Tensor1) : F := fold_left fadd t fzero.

(** [t.mean()] of a one-dimensional tensor. *)
Definition mean (t : Tensor1) : F := fdiv (sum t) (fof_nat (length t)).

(** [t.std()] of a one-dimensional tensor: torch's default is the unbiased
    estimator, dividing the squared deviations by [max(0, N - 1)].  It is
    evaluated here in two passes. *)
Definition std (t : Tensor1) : F :=
  let m := mean t in
  let sq := map (fun x => fmul (fsub x m) (fsub x m)) t in
  fsqrt (fdiv (sum sq) (fof_nat (length t - 1))).

(** [t[:, j]] *)
Definition column (j : nat) (t : Tensor2) : Tensor1 :=
  map (fun row => nth j row fzero) t.

(** [t.mean(0)]: the mean over the first dimension, one value per
    position of the second. *)
Definition mean_dim0 (t : Tensor2) : Tensor1 :=
  map (fun j => mean (column j t)) (seq 0 (shape1 t)).

(** Arithmetic between a tensor and a zero-dimensional tensor broadcasts
    the scalar over every element. *)
Definition sub_scalar (t : Tensor2) (c : F) : Tensor2 :=
  map (map (fun x => fsub x c)) t.
Definition div_scalar (t : Tensor2) (c : F) : Tensor2 :=
  map (map (fun x => fdiv x c)) t.
Definition mul_scalar4 (t : Tensor4) (c : F) : Tensor4 :=
  map (map (map (map (fun x => fmul x c)))) t.
Definition add_scalar4 (t : Tensor4) (c : F) : Tensor4 :=
  map (map (map (map (fun x => fadd x c)))) t.

(** [t[None]]: a new leading dimension of size one. *)
Definition unsqueeze0 (t : Tensor2) : Tensor3 := [t].

(** [t[0]]; indexing an empty dimension raises [IndexError].  Iterating
    the result goes over its first dimension, which is how [zip] consumes
    it. *)
Definition getitem0 (t : Tensor4) : res Tensor3 :=
  match t with
  | [] => Raise IndexError
  | t0 :: _ => Ok t0
  end.

End Tensor.
Arguments Tensor1 F : clear implicits.
Arguments Tensor2 F : clear implicits.
Arguments Tensor3 F : clear implicits.
Arguments Tensor4 F : clear implicits.
End Torch.
Export Torch.

(** *** IEEE binary32 scalars ([torch.float32]) *)

Module Binary32.

Definition prec : Z := 24.
Definition emax : Z := 128.

(** The float nearest to an integer. *)
Definition of_Z (z : Z) : spec_float := binary_normalize prec emax z 0 false.

#[global] Instance scalar : Scalar spec_float := {
  fzero := S754_zero false;
  fadd := SFadd prec emax;
  fsub := SFsub prec emax;
  fmul := SFmul prec emax;
  fdiv := SFdiv prec emax;
  fsqrt := SFsqrt prec emax;
  fof_nat := fun n => of_Z (Z.of_nat n)
}.

(** Two to the power [e]. *)
Definition pow2 (e : Z) : R :=
  if (0 <=? e)%Z then IZR (2 ^ e) else (/ IZR (2 ^ (- e)))%R.

(** A finite float with mantissa [m] and exponent [e] stands for
    [m * 2^e], negated when the sign bit is set; the two zeros stand for
    0; the infinities and NaN stand for no real number. *)
#[global] Instance valued : Valued spec_float := fun f =>
  match f with
  | S754_zero _ => Some 0%R
  | S754_finite sign m e =>
      Some ((if sign then -1 else 1) * IZR (Zpos m) * pow2 e)%R
  | S754_infinity _ | S754_nan => None
  end.

End Binary32.

(** *** Exact scalars

    Real numbers with one extra element [None] standing for every value
    that is not a finite number (NaN and the infinities).  [None] is
    absorbing.  Dividing by zero and taking the square root of a negative
    number give [None].  There is no rounding, overflow or underflow:
    this is not the arithmetic of the code, and it is used only where
    the value that is not a number absorbs every operation, as it does
    in IEEE arithmetic. *)

Module Exact.

Definition xreal : Type := option R.

Definition lift2 (f : R -> R -> R) (a b : xreal) : xreal :=
  match a, b with
  | Some x, Some y => Some (f x y)
  | _, _ => None
  end.

Definition xdiv (a b : xreal) : xreal :=
  match a, b with
  | Some x, Some y => if Req_dec_T y 0 then None else Some (x / y)%R
  | _, _ => None
  end.

Definition xsqrt (a : xreal) : xreal :=
  match a with
  | Some x => if Rlt_dec x 0 then None else Some (sqrt x)
  | None => None
  end.

#[global] Instance scalar : Scalar xreal := {
  fzero := Some 0%R;
  fadd := lift2 Rplus;
  fsub := lift2 Rminus;
  fmul := lift2 Rmult;
  fdiv := xdiv;
  fsqrt := xsqrt;
  fof_nat := fun n => Some (INR n)
}.

#[global] Instance valued : Valued xreal := fun x => x.

(** A tensor of finite values. *)
Definition finite2 (t : list (list R)) : Tensor2 xreal := map (map Some) t.

End Exact.

(** ** The [Separator] class *)

(** What the API reads from a loaded model. *)
Record Model : Type := {
  sources : list string;
  samplerate : Z;
  audio_channels : Z
}.

(** Keyword arguments of [__init__] and [update_parameter]; an argument
    that is not passed has its default, [None] for [update_parameter]. *)
Record Parameters : Type := {
  device : pyval;
  shifts : pyval;
  overlap : pyval;
  split : pyval;
  segment : pyval;
  jobs : pyval;
  progress : pyval;
  callback : pyval;
  callback_arg : pyval
}.

Definition no_parameters : Parameters :=
  {| device := PyNone; shifts := PyNone; overlap := PyNone; split := PyNone;
     segment := PyNone; jobs := PyNone; progress := PyNone;
     callback := PyNone; callback_arg := PyNone |}.

(** The defaults of [__init__]; [cuda] is [th.cuda.is_available()]. *)
Definition init_defaults (cuda : bool) : Parameters :=
  {| device := PyStr (if cuda then "cuda" else "cpu");
     shifts := PyInt 1;
     overlap := PyFloat (1 # 4);
     split := PyBool true;
     segment := PyNone;
     jobs := PyInt 0;
     progress := PyBool false;
     callback := PyNone;
     callback_arg := PyNone |}.

(** [update_parameter(overlap=v)] *)
Definition only_overlap (v : pyval) : Parameters :=
  {| device := PyNone; shifts := PyNone; overlap := v; split := PyNone;
     segment := PyNone; jobs := PyNone; progress := PyNone;
     callback := PyNone; callback_arg := PyNone |}.

(** [update_parameter(callback=v)] *)
Definition only_callback (v : pyval) : Parameters :=
  {| device := PyNone; shifts := PyNone; overlap := PyNone; split := PyNone;
     segment := PyNone; jobs := PyNone; progress := PyNone;
     callback := v; callback_arg := PyNone |}.

(** [update_parameter(callback_arg=d)] for a dict [d]. *)
Definition only_callback_arg_of (d : gmap string pyval) : Parameters :=
  {| device := PyNone; shifts := PyNone; overlap := PyNone; split := PyNone;
     segment := PyNone; jobs := PyNone; progress := PyNone;
     callback := PyNone; callback_arg := PyDict d |}.

(** A [Separator] instance.  The attributes written by plain assignment
    are fields; the configuration attributes, which [_set_attr] tests with
    [hasattr] and writes with [setattr] by name, are the entries of
    [attrs]. *)
Record Separator : Type := {
  _name : string;
  _repo : option string;
  _model : Model;
  _audio_channels : Z;
  _samplerate : Z;
  attrs : gmap string pyval
}.

Definition hasattr (self : Separator) (attr : string) : bool :=
  bool_decide (is_Some (attrs self !! attr)).

Definition setattr (self : Separator) (attr : string) (value : pyval) : Separator :=
  {| _name := _name self; _repo := _repo self; _model := _model self;
     _audio_channels := _audio_channels self; _samplerate := _samplerate self;
     attrs := <[attr := value]> (attrs self) |}.

(** [self.attr] for a configuration attribute. *)
Definition getattr (self : Separator) (attr : string) : res pyval :=
  match attrs self !! attr with
  | Some v => Ok v
  | None => Raise (AttributeError attr)
  end.

Definition _set_attr (self : Separator) (attr : string) (value : pyval) : Separator :=
  if is_not_None value then setattr self attr value
  else if negb (hasattr self attr) then setattr self attr PyNone
  else self.

Definition update_parameter (p : Parameters) (self : Separator) : Separator :=
  let self := _set_attr self "_device" (device p) in
  let self := _set_attr self "_shifts" (shifts p) in
  let self := _set_attr self "_overlap" (overlap p) in
  let self := _set_attr self "_split" (split p) in
  let self := _set_attr self "_segment" (segment p) in
  let self := _set_attr self "_jobs" (jobs p) in
  let self := _set_attr self "_progress" (progress p) in
  let self := _set_attr self "_callback"
                (if callable (callback p) then callback p else PyNone) in
  _set_attr self "_callback_arg" (callback_arg p).

(** The names of the configuration attributes. *)
Definition config_attrs : list string :=
  ["_device"; "_shifts"; "_overlap"; "_split"; "_segment"; "_jobs";
   "_progress"; "_callback"; "_callback_arg"].

(** Arguments of one [apply_model] call. *)
Record ApplyModelCall (F : Type) : Type := {
  am_model : Model;
  am_mix : Tensor3 F;
  am_segment : pyval;
  am_shifts : pyval;
  am_split : pyval;
  am_overlap : pyval;
  am_device : pyval;
  am_num_workers : pyval;
  am_callback : pyval;
  am_callback_arg : gmap string pyval;
  am_progress : pyval
}.
Arguments am_model {F} _.
Arguments am_mix {F} _.
Arguments am_segment {F} _.
Arguments am_shifts {F} _.
Arguments am_split {F} _.
Arguments am_overlap {F} _.
Arguments am_device {F} _.
Arguments am_num_workers {F} _.
Arguments am_callback {F} _.
Arguments am_callback_arg {F} _.
Arguments am_progress {F} _.

(** Modelled from the spec: [_replace_dict] of [demucs/apply.py], which is
    not part of this source tree.  The callback context is the caller's
    key-value bag, empty when the caller gave none, with each substituted
    key set to its new value, the substitution winning over a caller value
    under the same key.  A context that is neither [None] nor a dict is
    rejected. *)
Definition _replace_dict (_dict : pyval) (sub : string * pyval)
  : res (gmap string pyval) :=
  match _dict with
  | PyNone => Ok (<[fst sub := snd sub]> ∅)
  | PyDict d => Ok (<[fst sub := snd sub]> d)
  | _ => Raise TypeError
  end.

Section Api.
Context {F : Type} {SF : Scalar F}.

(** [demucs.pretrained.get_model] *)
Variable get_model : string -> option string -> res (option Model).

(** [demucs.apply.apply_model] *)
Variable apply_model : ApplyModelCall F -> res (Tensor4 F).

(** [AudioFile(track).read(streams=0, samplerate=.., channels=..)] *)
Variable AudioFile_read : string -> Z -> Z -> res (Tensor2 F).

(** [torchaudio.load(str(track))]: the waveform and its sample rate. *)
Variable ta_load : string -> res (Tensor2 F * Z).

(** [demucs.audio.convert_audio(wav, from_samplerate, to_samplerate, channels)] *)
Variable convert_audio : Tensor2 F -> Z -> Z -> Z -> res (Tensor2 F).

(** [_load_model] on the instance that holds [_name] and [_repo]. *)
Definition _load_model (name : string) (repo : option string) : res Separator :=
  model <- get_model name repo ;;
  match model with
  | None => Raise (LoadModelError "Failed to load model")
  | Some m =>
      Ok {| _name := name; _repo := repo; _model := m;
            _audio_channels := audio_channels m; _samplerate := samplerate m;
            attrs := ∅ |}
  end.

(** [__init__] stores the model name and the repository, loads the
    model, then applies its keyword arguments through
    [update_parameter]; no configuration attribute exists before that
    call. *)
Definition __init__ (model : string) (repo : option string) (p : Parameters)
  : res Separator :=
  self <- _load_model model repo ;;
  Ok (update_parameter p self).

(** *** [_load_audio]

    The three blocks of the method thread the pair of local variables
    [(errors, wav)]; [wav] is [None] until a backend has produced one. *)

Definition load_state : Type := (odict string * option (Tensor2 F))%type.

Definition load_ffmpeg (self : Separator) (track : string) : res load_state :=
  match AudioFile_read track (_samplerate self) (_audio_channels self) with
  | Ok wav => Ok ([], Some wav)
  | Raise (FileNotFoundError _) =>
      Ok (odict_set [] "ffmpeg" "FFmpeg is not installed.", None)
  | Raise (CalledProcessError _) =>
      Ok (odict_set [] "ffmpeg" "FFmpeg could not read the file.", None)
  | Raise e => Raise e
  end.

Definition load_torchaudio (self : Separator) (track : string) (st : load_state)
  : res load_state :=
  match snd st with
  | Some _ => Ok st
  | None =>
      match ta_load track with
      | Ok (wav, sr) =>
          wav <- convert_audio wav sr (_samplerate self) (_audio_channels self) ;;
          Ok (fst st, Some wav)
      | Raise (RuntimeError args) =>
          match args with
          | [] => Raise IndexError
          | arg0 :: _ => Ok (odict_set (fst st) "torchaudio" arg0, None)
          end
      | Raise e => Raise e
      end
  end.

Definition load_error_line (entry : string * string) : string :=
  "When trying to load using " +:+ fst entry +:+
  ", got the following error: " +:+ snd entry.

Definition load_result (st : load_state) : res (Tensor2 F) :=
  match snd st with
  | None => Raise (LoadAudioError (join newline (map load_error_line (fst st))))
  | Some wav => Ok wav
  end.

Definition _load_audio (self : Separator) (track : string) : res (Tensor2 F) :=
  st <- load_ffmpeg self track ;;
  st <- load_torchaudio self track st ;;
  load_result st.

(** *** [separate_tensor] *)

(** The keyword arguments of the [apply_model] call, evaluated in source
    order; [wav] is the waveform bound to the name at that point. *)
Definition apply_model_call (self : Separator) (wav : Tensor2 F)
  : res (ApplyModelCall F) :=
  segment <- getattr self "_segment" ;;
  shifts <- getattr self "_shifts" ;;
  split <- getattr self "_split" ;;
  overlap <- getattr self "_overlap" ;;
  device <- getattr self "_device" ;;
  jobs <- getattr self "_jobs" ;;
  callback <- getattr self "_callback" ;;
  callback_arg <- getattr self "_callback_arg" ;;
  ctx <- _replace_dict callback_arg
           ("audio_length", PyInt (Z.of_nat (shape1 wav))) ;;
  progress <- getattr self "_progress" ;;
  Ok {| am_model := _model self;
        am_mix := unsqueeze0 wav;
        am_segment := segment;
        am_shifts := shifts;
        am_split := split;
        am_overlap := overlap;
        am_device := device;
        am_num_workers := jobs;
        am_callback := callback;
        am_callback_arg := ctx;
        am_progress := progress |}.

Definition separate_tensor (self : Separator) (wav : Tensor2 F)
  : res (Tensor2 F * odict (Tensor2 F)) :=
  let ref := mean_dim0 wav in
  let wav := div_scalar (sub_scalar wav (mean ref)) (std ref) in
  call <- apply_model_call self wav ;;
  out <- apply_model call ;;
  let out := add_scalar4 (mul_scalar4 out (std ref)) (mean ref) in
  out0 <- getitem0 out ;;
  Ok (wav, dict_of_pairs (zip (sources (_model self)) out0)).

Definition separate_audio_file (self : Separator) (file : string)
  : res (Tensor2 F * odict (Tensor2 F)) :=
  wav <- _load_audio self file ;;
  separate_tensor self wav.

End Api.

(** ** [pathlib.Path], POSIX flavour

    A path is its root and the list of its components; empty components
    and ["."] components are dropped when the path is parsed. *)

Module Pathlib.

Record Path : Type := { root : string; parts : list string }.

(** [s.split("/")] *)
Fixpoint split_slash (s : string) : list string :=
  match s with
  | EmptyString => [EmptyString]
  | String c s' =>
      if Ascii.eqb c "/" then EmptyString :: split_slash s'
      else match split_slash s' with
           | [] => [String c EmptyString]
           | h :: t => String c h :: t
           end
  end.

Definition is_component (c : string) : bool :=
  negb (String.eqb c EmptyString) && negb (String.eqb c ".").

Definition parse_root (s : string) : string :=
  match s with
  | String "/" (String "/" (String "/" _)) => "/"
  | String "/" (String "/" _) => "//"
  | String "/" _ => "/"
  | _ => EmptyString
  end.

(** [Path(s)] *)
Definition of_string (s : string) : Path :=
  {| root := parse_root s;
     parts := List.filter is_component (split_slash s) |}.

(** [str(path)] *)
Definition str (p : Path) : string :=
  match root p, parts p with
  | EmptyString, [] => "."
  | r, ps => r +:+ join "/" ps
  end.

(** [path.name]: the final component, if any. *)
Definition name (p : Path) : string := List.last (parts p) EmptyString.

(** [s.rfind(c)]; [None] stands for -1. *)
Fixpoint rfind (c : ascii) (s : string) : option nat :=
  match s with
  | EmptyString => None
  | String a s' =>
      match rfind c s' with
      | Some i => Some (S i)
      | None => if Ascii.eqb a c then Some 0%nat else None
      end
  end.

(** [path.suffix]: the final component from its last dot on, when that
    dot is neither its first nor its last character. *)
Definition suffix (p : Path) : string :=
  let name := name p in
  match rfind "." name with
  | Some i =>
      if (0 <? i)%nat && (i <? String.length name - 1)%nat
      then substring i (String.length name - i) name
      else EmptyString
  | None => EmptyString
  end.

End Pathlib.

(** ** [save_audio] *)

(** The [clip] argument, one of ["rescale"], ["clamp"], ["tanh"], ["none"]. *)
Inductive ClipMode : Type := Rescale | Clamp | Tanh | NoClip.

(** The encoder call a [save_audio] call ends in. *)
Inductive EncoderCall (F : Type) : Type :=
  | encode_mp3 (wav : Tensor2 F) (path : Pathlib.Path)
      (samplerate bitrate : Z) (verbose : bool)
  | ta_save (path : string) (wav : Tensor2 F) (sample_rate : Z)
      (encoding : option string) (bits_per_sample : Z).
Arguments encode_mp3 {F} wav path samplerate bitrate verbose.
Arguments ta_save {F} path wav sample_rate encoding bits_per_sample.

Section Save.
Context {F : Type}.

(** [demucs.audio.prevent_clip(wav, mode=clip)] *)
Variable prevent_clip : Tensor2 F -> ClipMode -> res (Tensor2 F).

Definition save_audio (wav : Tensor2 F) (path : string) (samplerate : Z)
    (bitrate : Z) (clip : ClipMode) (bits_per_sample : Z) (as_float : bool)
  : res (EncoderCall F) :=
  wav <- prevent_clip wav clip ;;
  let path := Pathlib.of_string path in
  let suffix := lower (Pathlib.suffix path) in
  if String.eqb suffix ".mp3" then
    Ok (encode_mp3 wav path samplerate bitrate true)
  else if String.eqb suffix ".wav" then
    let '(bits_per_sample, encoding) :=
      if as_float then (32%Z, "PCM_F") else (bits_per_sample, "PCM_S") in
    Ok (ta_save (Pathlib.str path) wav samplerate (Some encoding) bits_per_sample)
  else if String.eqb suffix ".flac" then
    Ok (ta_save (Pathlib.str path) wav samplerate None bits_per_sample)
  else
    Raise (ValueError ("Invalid suffix for path: " +:+ suffix)).

End Save.

(** [save_audio] with its defaults: [bitrate=320], [clip="rescale"],
    [bits_per_sample=16], [as_float=False]. *)
Definition save_audio_default {F : Type}
    (prevent_clip : Tensor2 F -> ClipMode -> res (Tensor2 F))
    (wav : Tensor2 F) (path : string) (samplerate : Z) : res (EncoderCall F) :=
  save_audio prevent_clip wav path samplerate 320 Rescale 16 false.

(** ** Stub collaborators and sample inputs *)

(** A model handle with the four stems of the pretrained models. *)
Definition stub_model : Model :=
  {| sources := ["drums"; "bass"; "other"; "vocals"];
     samplerate := 44100;
     audio_channels := 2 |}.

Definition stub_get_model (name : string) (repo : option string)
  : res (option Model) := Ok (Some stub_model).

(** The identity application strategy: every source is the mix itself. *)
Definition identity_strategy {F : Type} (call : ApplyModelCall F)
  : res (Tensor4 F) :=
  Ok (map (fun mix => map (fun _ => mix) (sources (am_model call)))
          (am_mix call)).

(** One channel with the samples 0, 2, 4, in binary32. *)
Definition ramp32 : Tensor2 spec_float :=
  [[Binary32.of_Z 0; Binary32.of_Z 2; Binary32.of_Z 4]].

(** Two channels in binary32 whose average is 0, 3, 6, with mean 3 and
    deviation 3: the statistics are small integers, and the normalized
    samples, thirds, are not binary32 numbers. *)
Definition thirds32 : Tensor2 spec_float :=
  [[Binary32.of_Z 1; Binary32.of_Z 3; Binary32.of_Z 5];
   [Binary32.of_Z (-1); Binary32.of_Z 3; Binary32.of_Z 7]].

(** Two silent channels of three samples, the second of negative
    zeros. *)
Definition silence_stereo32 : Tensor2 spec_float :=
  [[S754_zero false; S754_zero false; S754_zero false];
   [S754_zero true; S754_zero true; S754_zero true]].

(** One silent channel of three samples, in binary32. *)
Definition silence32 : Tensor2 spec_float :=
  [[Binary32.of_Z 0; Binary32.of_Z 0; Binary32.of_Z 0]].

(** A separator built by [Separator()] with the defaults, on a machine
    without CUDA. *)
Definition stub_separator : Separator :=
  update_parameter (init_defaults false)
    {| _name := "htdemucs"; _repo := None; _model := stub_model;
       _audio_channels := audio_channels stub_model;
       _samplerate := samplerate stub_model; attrs := ∅ |}.

(** A caller context that already has an [audio_length] entry. *)
Definition stub_context : gmap string pyval :=
  <["audio_length" := PyInt 7]> (<["job" := PyStr "demo"]> ∅).

Definition stub_separator_with_context : Separator :=
  update_parameter (only_callback_arg_of stub_context) stub_separator.

(** Decode backends that fail: FFmpeg is missing, torchaudio does not
    know the format. *)
Definition ffmpeg_missing {F : Type} (track : string) (samplerate channels : Z)
  : res (Tensor2 F) :=
  Raise (FileNotFoundError "No such file or directory: 'ffprobe'").

Definition torchaudio_unknown_format {F : Type} (track : string)
  : res (Tensor2 F * Z) := Raise (RuntimeError ["Format not recognised."]).

(** A decode backend that returns a given waveform at 48 kHz. *)
Definition torchaudio_returns {F : Type} (wav : Tensor2 F) (track : string)
  : res (Tensor2 F * Z) := Ok (wav, 48000%Z).

(** A conversion that leaves the waveform as it is. *)
Definition convert_nothing {F : Type} (wav : Tensor2 F) (from to channels : Z)
  : res (Tensor2 F) := Ok wav.

(** A clip prevention that leaves the waveform as it is. *)
Definition clip_nothing {F : Type} (wav : Tensor2 F) (mode : ClipMode)
  : res (Tensor2 F) := Ok wav.

(** A clip prevention that fails where [demucs.audio.prevent_clip]
    does: in the mode ["rescale"] it takes the maximum of the absolute
    samples, which raises [RuntimeError] on a waveform without samples.
    Elsewhere it leaves the waveform as it is. *)
Definition clip_checked {F : Type} (wav : Tensor2 F) (mode : ClipMode)
  : res (Tensor2 F) :=
  match mode, concat wav with
  | Rescale, [] =>
      Raise (RuntimeError ["max(): Expected reduction dim to be specified for input.numel() == 0."])
  | _, _ => Ok wav
  end.

(** ** Notions used in the statements *)

(** The text [_load_audio] records for a failure of the FFmpeg backend
    that it handles. *)
Definition ffmpeg_failure_text (e : exn) : option string :=
  match e with
  | FileNotFoundError _ => Some "FFmpeg is not installed."
  | CalledProcessError _ => Some "FFmpeg could not read the file."
  | _ => None
  end.

(** The format a [save_audio] call was dispatched to; [None] when it
    raised. *)
Inductive Format : Type := Mp3 | Wav | Flac.

Definition dispatched {F : Type} (r : res (EncoderCall F)) : option Format :=
  match r with
  | Ok (encode_mp3 _ _ _ _ _) => Some Mp3
  | Ok (ta_save _ _ _ (Some _) _) => Some Wav
  | Ok (ta_save _ _ _ None _) => Some Flac
  | Raise _ => None
  end.

(** The keyword argument of [update_parameter] that is written to a
    configuration attribute. *)
Definition supplied (p : Parameters) (attr : string) : option pyval :=
  if String.eqb attr "_device" then Some (device p)
  else if String.eqb attr "_shifts" then Some (shifts p)
  else if String.eqb attr "_overlap" then Some (overlap p)
  else if String.eqb attr "_split" then Some (split p)
  else if String.eqb attr "_segment" then Some (segment p)
  else if String.eqb attr "_jobs" then Some (jobs p)
  else if String.eqb attr "_progress" then Some (progress p)
  else if String.eqb attr "_callback" then Some (callback p)
  else if String.eqb attr "_callback_arg" then Some (callback_arg p)
  else None.

(** The supplied value when it takes effect: it is not [None] and, for
    the callback, it is callable. *)
Definition accepted (p : Parameters) (attr : string) : option pyval :=
  match supplied p attr with
  | Some v =>
      if is_not_None v && (negb (String.eqb attr "_callback") || callable v)
      then Some v else None
  | None => None
  end.

(** A run of [update_parameter] calls, first call first. *)
Definition update_parameters (ps : list Parameters) (self : Separator) : Separator :=
  fold_left (fun s p => update_parameter p s) ps self.

(** The instances a program can hold: built by the constructor, then
    changed by [update_parameter] only. *)
Inductive reachable (get_model : string -> option string -> res (option Model))
  : Separator -> Prop :=
  | reachable_init model repo p self :
      __init__ get_model model repo p = Ok self ->
      reachable get_model self
  | reachable_update p self :
      reachable get_model self ->
      reachable get_model (update_parameter p self).

(** Every configuration attribute is set. *)
Definition configured (self : Separator) : Prop :=
  Forall (fun attr => is_Some (attrs self !! attr)) config_attrs.

(** The caller's callback context: the empty bag when [_callback_arg] is
    [None], the dict itself when it is one. *)
Definition context_bag (self : Separator) : option (gmap string pyval) :=
  match attrs self !! "_callback_arg" with
  | Some PyNone => Some ∅
  | Some (PyDict d) => Some d
  | _ => None
  end.

(** An instance on which [separate_tensor] can build its [apply_model]
    call: the configuration is set and the callback context is a bag. *)
Definition ready (self : Separator) : Prop :=
  configured self /\ is_Some (context_bag self).

(** The operation [fop] on [a] and [b] returns a finite number within
    a relative error of [u] of the real result [op]: what IEEE
    arithmetic guarantees, for the unit roundoff [u] of the format, of
    an operation that neither overflows nor underflows. *)
Definition rounds {F : Type} {VF : Valued F} (u : R) (op : R -> R -> R)
    (fop : F -> F -> F) (a b : F) : Prop :=
  exists va vb vr,
    value a = Some va /\ value b = Some vb /\ value (fop a b) = Some vr /\
    (Rabs (vr - op va vb) <= u * Rabs (op va vb))%R.

(** Each of the four operations that take the sample [x] through
    normalization by [m] and [s] and back is rounded within [u]. *)
Definition round_trip_rounds {F : Type} {SF : Scalar F} {VF : Valued F}
    (u : R) (m s x : F) : Prop :=
  rounds u Rminus fsub x m /\
  rounds u Rdiv fdiv (fsub x m) s /\
  rounds u Rmult fmul (fdiv (fsub x m) s) s /\
  rounds u Rplus fadd (fmul (fdiv (fsub x m) s) s) m.

(** The sample [y] is the sample [x] again within the tolerance that
    four roundings within [u] leave, for the reference mean [m]. *)
Definition close {F : Type} {VF : Valued F} (u : R) (m y x : F) : Prop :=
  exists vy vx vm,
    value y = Some vy /\ value x = Some vx /\ value m = Some vm /\
    (Rabs (vy - vx) <= ((1 + u) ^ 4 - 1) * Rabs (vx - vm) + u * Rabs vm)%R.

(** The normalization round trip on a waveform, with the identity
    application strategy: every source comes back as one waveform, each
    sample of which is the input sample again within the tolerance. *)
Definition round_trip {F : Type} {SF : Scalar F} {VF : Valued F}
    (u : R) (self : Separator) (wav : Tensor2 F) : Prop :=
  exists first back,
    separate_tensor identity_strategy self wav =
    Ok (first,
        dict_of_pairs
          (map (fun name => (name, back)) (sources (_model self)))) /\
    Forall2 (Forall2 (close u (mean (mean_dim0 wav)))) back wav.

(** ** The rest of the module *)

(** The read-only properties [samplerate], [audio_channels] and [model]
    of a [Separator]. *)
Definition Separator_samplerate (self : Separator) : Z := _samplerate self.
Definition Separator_audio_channels (self : Separator) : Z := _audio_channels self.
Definition Separator_model (self : Separator) : Model := _model self.

(** *** The script under [if __name__ == "__main__"]

    The options the script reads from the parsed command line. *)
Record Args : Type := {
  args_mp3 : bool;
  args_flac : bool;
  args_int24 : bool;
  args_float32 : bool;
  args_mp3_bitrate : Z;
  args_clip_mode : ClipMode
}.

(** [s.rsplit(sep, 1)] for a one-character separator: the text before
    and after the last occurrence of [sep], or [s] alone when there is
    none. *)
Definition rsplit1 (sep : ascii) (s : string) : list string :=
  match Pathlib.rfind sep s with
  | Some i =>
      [substring 0 i s; substring (S i) (String.length s - S i) s]
  | None => [s]
  end.

(** [Path(file).name.rsplit(".", 1)[0]], the [track] of the file name
    template. *)
Definition main_track (file : string) : string :=
  hd EmptyString (rsplit1 "." (Pathlib.name (Pathlib.of_string file))).

(** [Path(file).name.rsplit(".", 1)[-1]], the [trackext] of the file
    name template. *)
Definition main_trackext (file : string) : string :=
  List.last (rsplit1 "." (Pathlib.name (Pathlib.of_string file))) EmptyString.

(** The [ext] chosen for a track. *)
Definition main_ext (args : Args) : string :=
  if args_mp3 args then "mp3"
  else if args_flac args then "flac"
  else "wav".

(** [save_audio(source, str(stem), **kwargs)] with the [kwargs] the
    script builds from the options and the separator. *)
Definition main_save {F : Type}
    (prevent_clip : Tensor2 F -> ClipMode -> res (Tensor2 F))
    (args : Args) (separator : Separator) (source : Tensor2 F)
    (stem : string) : res (EncoderCall F) :=
  save_audio prevent_clip source stem
    (Separator_samplerate separator)
    (args_mp3_bitrate args)
    (args_clip_mode args)
    (if args_int24 args then 24%Z else 16%Z)
    (args_float32 args).

(** *** More stub collaborators *)

(** An FFmpeg backend that may not read the file. *)
Definition ffmpeg_denied {F : Type} (track : string) (samplerate channels : Z)
  : res (Tensor2 F) := Raise (OtherException "PermissionError").

(** A torchaudio backend that runs out of memory. *)
Definition torchaudio_out_of_memory {F : Type} (track : string)
  : res (Tensor2 F * Z) := Raise (OtherException "MemoryError").

(** An application strategy that fails, and one that returns an empty
    batch. *)
Definition failing_strategy {F : Type} (call : ApplyModelCall F)
  : res (Tensor4 F) := Raise (ValueError "strategy failed").

Definition empty_strategy {F : Type} (call : ApplyModelCall F)
  : res (Tensor4 F) := Ok [].

(** An application strategy that reports the [audio_length] of the
    context it is given, and does nothing else. *)
Definition reporting_strategy {F : Type} (call : ApplyModelCall F)
  : res (Tensor4 F) :=
  match am_callback_arg call !! "audio_length" with
  | Some (PyInt n) => Raise (OtherException ("audio_length " +:+ pretty n))
  | _ => Raise (OtherException "no audio_length")
  end.

(** An application strategy that returns the mix for the first two
    sources only. *)
Definition two_source_strategy {F : Type} (call : ApplyModelCall F)
  : res (Tensor4 F) :=
  Ok (map (fun mix => [mix; mix]) (am_mix call)).

(** ** More notions used in the statements *)

(** [isinstance(e, RuntimeError)] *)
Definition is_RuntimeError (e : exn) : bool :=
  match e with RuntimeError _ => true | _ => false end.

(** [isinstance(e, LoadAudioError)] *)
Definition is_LoadAudioError (e : exn) : bool :=
  match e with LoadAudioError _ => true | _ => false end.

(** The exception of a result, if it is one. *)
Definition raised {A : Type} (r : res A) : option exn :=
  match r with Ok _ => None | Raise e => Some e end.

(** Every sample of a tensor over exact scalars is not a finite number. *)
Definition nowhere_finite (t : Tensor2 Exact.xreal) : Prop :=
  Forall (Forall (fun x => x = None)) t.

(** A float that is a zero or NaN. *)
Definition zero_or_nan (a : spec_float) : Prop :=
  match a with
  | S754_zero _ | S754_nan => True
  | _ => False
  end.

(** A binary32 waveform every sample of which is a zero, and one every
    sample of which is NaN. *)
Definition silent (wav : Tensor2 spec_float) : Prop :=
  Forall (Forall (fun x => exists sign, x = S754_zero sign)) wav.

Definition all_nan (wav : Tensor2 spec_float) : Prop :=
  Forall (Forall (fun x => x = S754_nan)) wav.

(** Sum and mean of a list of reals, and the channel average of a
    waveform of reals with at least one channel: one value per sample
    frame, the mean over the channels of the samples of that frame. *)
Definition Rsum (l : list R) : R := fold_left Rplus l 0%R.

Definition Rmean (l : list R) : R := (Rsum l / INR (length l))%R.

Definition channel_average (W : list (list R)) : list R :=
  map (fun j => Rmean (map (fun row => nth j row 0%R) W))
      (seq 0 (length (hd [] W))).

(** The unbiased standard deviation of a list of reals. *)
Definition Rstd (l : list R) : R :=
  sqrt (Rsum (map (fun x => (x - Rmean l) * (x - Rmean l))%R l)
        / INR (length l - 1)).

(** The waveform and the destination handed to the encoder. *)
Definition encoded_wav {F : Type} (call : EncoderCall F) : Tensor2 F :=
  match call with
  | encode_mp3 wav _ _ _ _ => wav
  | ta_save _ wav _ _ _ => wav
  end.

Definition encoded_path {F : Type} (call : EncoderCall F) : string :=
  match call with
  | encode_mp3 _ path _ _ _ => Pathlib.str path
  | ta_save path _ _ _ _ => path
  end.

(** The sample rate handed to the encoder. *)
Definition encoded_samplerate {F : Type} (call : EncoderCall F) : Z :=
  match call with
  | encode_mp3 _ _ samplerate _ _ => samplerate
  | ta_save _ _ sample_rate _ _ => sample_rate
  end.

(** * Properties *)

(** ** Configuration updates *)

Section UpdateParameter.
Implicit Types (self : Separator) (p : Parameters) (attr : string) (v : pyval).

Lemma lookup_set_attr self a v attr :
  attrs (_set_attr self a v) !! attr =
  if decide (a = attr)
  then Some (if is_not_None v then v else default PyNone (attrs self !! a))
  else attrs self !! attr.
Proof.
  unfold _set_attr, hasattr.
  destruct (is_not_None v) eqn:Hv; simpl.
  - by rewrite lookup_insert.
  - case_bool_decide as Hs; simpl.
    + destruct Hs as [x Hx]. case_decide; subst; rewrite ?Hx; done.
    + rewrite lookup_insert. case_decide; [|done].
      subst. apply eq_None_not_Some in Hs. by rewrite Hs.
Qed.

Lemma is_not_None_spec v : is_not_None v = true <-> v <> PyNone.
Proof. destruct v; simpl; split; congruence. Qed.

Lemma callable_not_None v : callable v = true -> is_not_None v = true.
Proof. by destruct v. Qed.

Lemma lookup_set_attr_eq self a v :
  attrs (_set_attr self a v) !! a =
  Some (if is_not_None v then v else default PyNone (attrs self !! a)).
Proof. rewrite lookup_set_attr. by case_decide. Qed.

Lemma lookup_set_attr_ne self a v attr :
  a <> attr -> attrs (_set_attr self a v) !! attr = attrs self !! attr.
Proof. intros. rewrite lookup_set_attr. by case_decide. Qed.

Lemma eqb_false_of_ne (a b : string) : a <> b -> String.eqb a b = false.
Proof. apply String.eqb_neq. Qed.

Ltac lookup_update :=
  unfold update_parameter;
  repeat first [ rewrite lookup_set_attr_eq
               | rewrite lookup_set_attr_ne by discriminate ].

Lemma lookup_update_parameter p self attr :
  attrs (update_parameter p self) !! attr =
  match accepted p attr with
  | Some v => Some v
  | None =>
      if bool_decide (attr ∈ config_attrs)
      then Some (default PyNone (attrs self !! attr))
      else attrs self !! attr
  end.
Proof.
  destruct (bool_decide (attr ∈ config_attrs)) eqn:Hin.
  - apply bool_decide_eq_true_1 in Hin. unfold config_attrs in Hin.
    rewrite !elem_of_cons, elem_of_nil in Hin.
    unfold accepted, supplied.
    destruct Hin as [->|[->|[->|[->|[->|[->|[->|[->|[->|[]]]]]]]]]];
      lookup_update; vm_compute String.eqb; cbn [andb orb negb];
      rewrite ?andb_true_r;
      try (destruct (is_not_None _); reflexivity).
    destruct (callable (callback p)) eqn:Hc.
    + by rewrite (callable_not_None _ Hc).
    + by rewrite andb_false_r.
  - apply bool_decide_eq_false_1 in Hin. unfold config_attrs in Hin.
    rewrite !elem_of_cons, elem_of_nil in Hin.
    assert (Hs : supplied p attr = None).
    { unfold supplied.
      repeat (rewrite eqb_false_of_ne; [|intros ->; apply Hin; tauto]).
      reflexivity. }
    unfold accepted. rewrite Hs.
    unfold update_parameter.
    repeat (rewrite lookup_set_attr_ne; [|intros <-; apply Hin; tauto]).
    reflexivity.
Qed.

Lemma set_attr_fields self a v :
  _name (_set_attr self a v) = _name self /\
  _repo (_set_attr self a v) = _repo self /\
  _model (_set_attr self a v) = _model self /\
  _audio_channels (_set_attr self a v) = _audio_channels self /\
  _samplerate (_set_attr self a v) = _samplerate self.
Proof.
  unfold _set_attr.
  destruct (is_not_None v); [done|]. by destruct (negb (hasattr self a)).
Qed.

Lemma update_parameter_fields p self :
  _name (update_parameter p self) = _name self /\
  _repo (update_parameter p self) = _repo self /\
  _model (update_parameter p self) = _model self /\
  _audio_channels (update_parameter p self) = _audio_channels self /\
  _samplerate (update_parameter p self) = _samplerate self.
Proof.
  unfold update_parameter.
  repeat match goal with
         | |- context [_set_attr ?s ?a ?v] =>
             let H := fresh in
             pose proof (set_attr_fields s a v) as H;
             destruct H as (-> & -> & -> & -> & ->)
         end.
  done.
Qed.

Lemma separator_eq (s1 s2 : Separator) :
  _name s1 = _name s2 -> _repo s1 = _repo s2 -> _model s1 = _model s2 ->
  _audio_channels s1 = _audio_channels s2 -> _samplerate s1 = _samplerate s2 ->
  (forall attr, attrs s1 !! attr = attrs s2 !! attr) ->
  s1 = s2.
Proof.
  destruct s1, s2; simpl. intros -> -> -> -> -> H.
  f_equal. by apply map_eq.
Qed.

Lemma accepted_not_None p attr v : accepted p attr = Some v -> v <> PyNone.
Proof.
  unfold accepted. destruct (supplied p attr) as [w|]; [|done].
  destruct (is_not_None w) eqn:Hw; simpl; [|done].
  destruct (_ || _); [|done]. intros [= <-]. by apply is_not_None_spec.
Qed.

Lemma accepted_callback p v :
  accepted p "_callback" = Some v -> v = callback p /\ callable v = true.
Proof.
  unfold accepted, supplied. vm_compute String.eqb. cbn [negb orb].
  destruct (is_not_None (callback p)); simpl; [|done].
  destruct (callable (callback p)) eqn:Hc; [|done]. by intros [= <-].
Qed.

Lemma accepted_callback_None p :
  callable (callback p) = false -> accepted p "_callback" = None.
Proof.
  intros Hc. destruct (accepted p "_callback") as [v|] eqn:Ha; [|done].
  apply accepted_callback in Ha as [-> Hv]. congruence.
Qed.

(** After the constructor every configuration attribute exists. *)
Lemma update_parameter_configured p self : configured (update_parameter p self).
Proof.
  unfold configured. rewrite Forall_forall. intros attr Hin.
  rewrite lookup_update_parameter.
  destruct (accepted p attr); [by eexists|].
  rewrite bool_decide_eq_true_2 by done. by eexists.
Qed.

Lemma init_inv get_model model repo p self :
  __init__ get_model model repo p = Ok self ->
  exists m,
    get_model model repo = Ok (Some m) /\
    self = update_parameter p
             {| _name := model; _repo := repo; _model := m;
                _audio_channels := audio_channels m;
                _samplerate := samplerate m; attrs := ∅ |}.
Proof.
  unfold __init__, _load_model.
  destruct (get_model model repo) as [[m|]|e]; simpl; try done.
  intros [= <-]. by exists m.
Qed.

Lemma reachable_configured get_model self :
  reachable get_model self -> configured self.
Proof.
  destruct 1 as [model repo p self H|p self H].
  - apply init_inv in H as (m & _ & ->). apply update_parameter_configured.
  - apply update_parameter_configured.
Qed.

Lemma configured_lookup self attr :
  configured self -> attr ∈ config_attrs -> is_Some (attrs self !! attr).
Proof. unfold configured. rewrite Forall_forall. auto. Qed.

(** On a configured instance an update touches the accepted arguments
    only. *)
Lemma lookup_update_parameter_configured p self attr :
  configured self ->
  attrs (update_parameter p self) !! attr =
  match accepted p attr with
  | Some v => Some v
  | None => attrs self !! attr
  end.
Proof.
  intros Hc. rewrite lookup_update_parameter.
  destruct (accepted p attr); [done|].
  case_bool_decide as Hin; [|done].
  by destruct (configured_lookup _ _ Hc Hin) as [x ->].
Qed.

Lemma update_step_keeps_value p self attr v :
  attrs self !! attr = Some v -> v <> PyNone ->
  exists v', attrs (update_parameter p self) !! attr = Some v' /\ v' <> PyNone.
Proof.
  intros Hv Hn. rewrite lookup_update_parameter, Hv.
  destruct (accepted p attr) as [w|] eqn:Ha.
  - exists w. split; [done|]. by eapply accepted_not_None.
  - exists v. by case_bool_decide.
Qed.

Lemma reachable_callback get_model self :
  reachable get_model self ->
  exists v, attrs self !! "_callback" = Some v /\
            (v = PyNone \/ callable v = true).
Proof.
  induction 1 as [model repo p self H|p self H IH].
  - apply init_inv in H as (m & _ & ->).
    rewrite lookup_update_parameter.
    destruct (accepted p "_callback") as [w|] eqn:Ha.
    + apply accepted_callback in Ha as [_ Hw]. eauto.
    + exists PyNone. split; [|by left]. by vm_compute.
  - destruct IH as (v & Hv & Hok).
    rewrite lookup_update_parameter, Hv.
    destruct (accepted p "_callback") as [w|] eqn:Ha.
    + apply accepted_callback in Ha as [_ Hw]. eauto.
    + exists v. split; [|done]. by vm_compute.
Qed.

End UpdateParameter.

(** C4 (as amended): [update_parameter] never raises; a configuration
    attribute takes the supplied value exactly when that value is not
    [None] and, for the callback, is callable; every other attribute keeps
    its value, or becomes [None] if it was not set yet; the attributes set
    by the constructor are untouched.  After construction with
    [overlap=0.25], [update_parameter(overlap=0.5)] changes [_overlap]
    and nothing else. *)
Theorem update_parameter_partial_update :
  (forall p self attr,
      attrs (update_parameter p self) !! attr =
      match accepted p attr with
      | Some v => Some v
      | None =>
          if bool_decide (attr ∈ config_attrs)
          then Some (default PyNone (attrs self !! attr))
          else attrs self !! attr
      end) /\
  (forall p self,
      _name (update_parameter p self) = _name self /\
      _repo (update_parameter p self) = _repo self /\
      _model (update_parameter p self) = _model self /\
      _audio_channels (update_parameter p self) = _audio_channels self /\
      _samplerate (update_parameter p self) = _samplerate self) /\
  (forall get_model model repo p0 self,
      overlap p0 = PyFloat (1 # 4) ->
      __init__ get_model model repo p0 = Ok self ->
      attrs self !! "_overlap" = Some (PyFloat (1 # 4)) /\
      update_parameter (only_overlap (PyFloat (1 # 2))) self =
      setattr self "_overlap" (PyFloat (1 # 2))).
Proof.
  split; [exact lookup_update_parameter|].
  split; [exact update_parameter_fields|].
  intros get_model model repo p0 self Hov Hinit.
  assert (Hc : configured self)
    by (eapply reachable_configured, reachable_init, Hinit).
  apply init_inv in Hinit as (m & _ & ->).
  split.
  - rewrite lookup_update_parameter.
    unfold accepted, supplied. vm_compute String.eqb. by rewrite Hov.
  - destruct (update_parameter_fields (only_overlap (PyFloat (1 # 2)))
                (update_parameter p0
                   {| _name := model; _repo := repo; _model := m;
                      _audio_channels := audio_channels m;
                      _samplerate := samplerate m; attrs := ∅ |}))
      as (? & ? & ? & ? & ?).
    apply separator_eq; try done.
    intros attr. rewrite lookup_update_parameter_configured by done.
    simpl. rewrite lookup_insert.
    case_decide as Hd.
    + subst attr. reflexivity.
    + unfold accepted, supplied.
      rewrite (eqb_false_of_ne attr "_overlap") by congruence.
      simpl. repeat (destruct (String.eqb attr _); [done|]). done.
Qed.

(** Witness for C4: the default construction followed by
    [update_parameter(overlap=0.5)]. *)
Lemma update_parameter_partial_update_witness :
  attrs stub_separator !! "_overlap" = Some (PyFloat (1 # 4)) /\
  update_parameter (only_overlap (PyFloat (1 # 2))) stub_separator =
  setattr stub_separator "_overlap" (PyFloat (1 # 2)).
Proof.
  apply (proj2 (proj2 update_parameter_partial_update)
           stub_get_model "htdemucs" None (init_defaults false));
    vm_compute; reflexivity.
Defined.

(** Counterexample to C4 as stated: a callback argument that is not
    [None] and not callable is supplied, and the attribute does not take
    it. *)
Lemma update_parameter_non_callable_not_set :
  supplied (only_callback (PyInt 5)) "_callback" = Some (PyInt 5) /\
  PyInt 5 <> PyNone /\
  attrs (update_parameter (only_callback (PyInt 5)) stub_separator)
    !! "_callback" = Some PyNone /\
  attrs (update_parameter (only_callback (PyInt 5)) stub_separator)
    !! "_callback" <> Some (PyInt 5).
Proof.
  assert (H : attrs (update_parameter (only_callback (PyInt 5)) stub_separator)
                !! "_callback" = Some PyNone) by (by vm_compute).
  rewrite H. repeat split; done.
Qed.

(** C10: a configuration attribute that holds a value other than [None]
    holds one after any run of [update_parameter] calls; on every
    instance a program can reach, [_callback] is [None] or callable; and
    there, a callback argument that is not callable leaves [_callback]
    as it was. *)
Theorem update_parameter_never_unsets :
  (forall ps self attr v,
      attrs self !! attr = Some v -> v <> PyNone ->
      exists v', attrs (update_parameters ps self) !! attr = Some v' /\
                 v' <> PyNone) /\
  (forall get_model self,
      reachable get_model self ->
      exists v, attrs self !! "_callback" = Some v /\
                (v = PyNone \/ callable v = true)) /\
  (forall get_model self p,
      reachable get_model self ->
      callable (callback p) = false ->
      attrs (update_parameter p self) !! "_callback" =
      attrs self !! "_callback").
Proof.
  repeat split.
  - intros ps. induction ps as [|p ps IH]; intros self attr v Hv Hn.
    + exists v. done.
    + simpl. destruct (update_step_keeps_value p self attr v Hv Hn)
        as (w & Hw & Hwn).
      exact (IH _ _ _ Hw Hwn).
  - exact reachable_callback.
  - intros get_model self p Hr Hc.
    rewrite lookup_update_parameter_configured
      by (eapply reachable_configured, Hr).
    by rewrite accepted_callback_None.
Qed.

(** Witness for C10: on the default instance, whose [_shifts] is 1, a run
    of two updates keeps [_shifts] set, and [update_parameter(callback=5)]
    leaves [_callback] alone. *)
Lemma update_parameter_never_unsets_witness :
  (exists v',
      attrs (update_parameters [no_parameters; only_callback (PyInt 5)]
               stub_separator) !! "_shifts" = Some v' /\ v' <> PyNone) /\
  attrs (update_parameter (only_callback (PyInt 5)) stub_separator)
    !! "_callback" = attrs stub_separator !! "_callback".
Proof.
  destruct update_parameter_never_unsets as (H1 & _ & H3).
  split.
  - apply (H1 _ stub_separator "_shifts" (PyInt 1)); [reflexivity|discriminate].
  - apply (H3 stub_get_model).
    + apply (reachable_init _ "htdemucs" None (init_defaults false)).
      vm_compute; reflexivity.
    + reflexivity.
Defined.

(** ** Separation of a tensor *)

Lemma lookup_map {A B} (f : A -> B) (l : list A) (i : nat) :
  map f l !! i = f <$> l !! i.
Proof. revert i. induction l as [|a l IH]; intros [|i]; simpl; auto. Qed.

Section SeparateTensor.
Context {F : Type} {SF : Scalar F}.
Implicit Types (self : Separator) (wav : Tensor2 F) (call : ApplyModelCall F).
Implicit Types (apply_model : ApplyModelCall F -> res (Tensor4 F)).

Lemma shape1_map (f : F -> F) wav : shape1 (map (map f) wav) = shape1 wav.
Proof. destruct wav as [|row wav]; simpl; [done|]. by rewrite length_map. Qed.

Lemma normalize_pointwise wav (m s : F) :
  div_scalar (sub_scalar wav m) s = map (map (fun x => fdiv (fsub x m) s)) wav.
Proof.
  unfold div_scalar, sub_scalar. rewrite map_map.
  apply map_ext. intros row. by rewrite map_map.
Qed.

Lemma denormalize_pointwise (out : Tensor4 F) (m s : F) :
  add_scalar4 (mul_scalar4 out s) m =
  map (map (map (map (fun y => fadd (fmul y s) m)))) out.
Proof.
  unfold add_scalar4, mul_scalar4.
  rewrite map_map. apply map_ext. intros t3.
  rewrite map_map. apply map_ext. intros t2.
  rewrite map_map. apply map_ext. intros t1.
  by rewrite map_map.
Qed.

Lemma getattr_lookup self attr v :
  attrs self !! attr = Some v -> getattr self attr = Ok v.
Proof. intros H. unfold getattr. by rewrite H. Qed.

Lemma getattr_configured self attr :
  configured self -> attr ∈ config_attrs ->
  exists v, attrs self !! attr = Some v /\ getattr self attr = Ok v.
Proof.
  intros Hc Hin. destruct (configured_lookup _ _ Hc Hin) as [v Hv].
  exists v. unfold getattr. by rewrite Hv.
Qed.

Lemma context_bag_replace self bag sub :
  context_bag self = Some bag ->
  exists c, attrs self !! "_callback_arg" = Some c /\
            _replace_dict c sub = Ok (<[fst sub := snd sub]> bag).
Proof.
  unfold context_bag.
  destruct (attrs self !! "_callback_arg") as [c|]; [|done].
  destruct c; try done; intros [= <-]; eauto.
Qed.

(** On a ready instance the call is built, from the attributes as they
    are and the context with [audio_length] set. *)
Lemma apply_model_call_ready self bag wav :
  configured self -> context_bag self = Some bag ->
  exists call,
    apply_model_call self wav = Ok call /\
    am_model call = _model self /\
    am_mix call = [wav] /\
    am_callback_arg call =
      <["audio_length" := PyInt (Z.of_nat (shape1 wav))]> bag /\
    attrs self !! "_segment" = Some (am_segment call) /\
    attrs self !! "_shifts" = Some (am_shifts call) /\
    attrs self !! "_split" = Some (am_split call) /\
    attrs self !! "_overlap" = Some (am_overlap call) /\
    attrs self !! "_device" = Some (am_device call) /\
    attrs self !! "_jobs" = Some (am_num_workers call) /\
    attrs self !! "_callback" = Some (am_callback call) /\
    attrs self !! "_progress" = Some (am_progress call).
Proof.
  intros Hc Hbag. unfold apply_model_call.
  destruct (context_bag_replace self bag
              ("audio_length", PyInt (Z.of_nat (shape1 wav))) Hbag)
    as (c & Hc1 & Hc2).
  rewrite (getattr_lookup self "_callback_arg" c Hc1).
  repeat match goal with
         | |- context [getattr self ?a] =>
             let v := fresh "v" in
             let H1 := fresh in
             let H2 := fresh in
             destruct (getattr_configured self a Hc) as (v & H1 & H2);
             [apply (bool_decide_unpack _); vm_compute; exact I|];
             rewrite H2; simpl bind
         end.
  rewrite Hc2. simpl.
  eexists. split; [reflexivity|]. simpl. repeat split; done.
Qed.

(** The pieces of [separate_tensor], element by element. *)
Lemma separate_tensor_unfold apply_model self wav :
  let m := mean (mean_dim0 wav) in
  let s := std (mean_dim0 wav) in
  let normalized := map (map (fun x => fdiv (fsub x m) s)) wav in
  separate_tensor apply_model self wav =
  (call <- apply_model_call self normalized ;;
   out <- apply_model call ;;
   match out with
   | [] => Raise IndexError
   | out0 :: _ =>
       Ok (normalized,
           dict_of_pairs
             (zip (sources (_model self))
                  (map (map (map (fun y => fadd (fmul y s) m))) out0)))
   end).
Proof.
  intros m s normalized. unfold separate_tensor.
  fold m s. rewrite normalize_pointwise. fold normalized.
  destruct (apply_model_call self normalized) as [call|e]; simpl; [|done].
  destruct (apply_model call) as [out|e]; simpl; [|done].
  rewrite denormalize_pointwise. by destruct out.
Qed.


Lemma keys_zip (ks : list string) (vs : list (Tensor2 F)) :
  length ks <= length vs -> keys (zip ks vs) = ks.
Proof.
  unfold keys. revert vs.
  induction ks as [|k ks IH]; intros [|v vs] Hlen; simpl in *; try done; try lia.
  f_equal. apply IH. lia.
Qed.

Lemma odict_set_fresh {V} (d : odict V) k v :
  k ∉ keys d -> odict_set d k v = (d ++ [(k, v)])%list.
Proof.
  unfold keys. induction d as [|[k' v'] d IH]; simpl; intros Hk; [done|].
  destruct (String.eqb_spec k k') as [->|Hne].
  - exfalso. apply Hk. apply elem_of_cons. by left.
  - f_equal. apply IH. intros Hin. apply Hk. apply elem_of_cons. by right.
Qed.

Lemma dict_of_pairs_nodup_aux {V} (pairs acc : odict V) :
  NoDup (keys acc ++ keys pairs)%list ->
  fold_left (fun d kv => odict_set d (fst kv) (snd kv)) pairs acc =
  (acc ++ pairs)%list.
Proof.
  revert acc. induction pairs as [|[k v] pairs IH]; intros acc Hnd; simpl.
  - by rewrite app_nil_r.
  - simpl in Hnd. apply NoDup_app in Hnd as (Hacc & Hdisj & Hp).
    apply NoDup_cons in Hp as [Hk Hp].
    rewrite odict_set_fresh
      by (intros Hin; apply (Hdisj _ Hin), elem_of_cons; by left).
    rewrite IH.
    + by rewrite <- app_assoc.
    + unfold keys in *. rewrite map_app. simpl.
      rewrite <- app_assoc. simpl.
      apply NoDup_app. split; [done|]. split.
      * exact Hdisj.
      * by apply NoDup_cons.
Qed.

(** A dict built from pairs with distinct keys is the pairs, in order. *)
Lemma dict_of_pairs_nodup {V} (pairs : odict V) :
  NoDup (keys pairs) -> dict_of_pairs pairs = pairs.
Proof. intros H. unfold dict_of_pairs. by rewrite dict_of_pairs_nodup_aux. Qed.

Lemma values_zip (ks : list string) (vs : list (Tensor2 F)) :
  length ks = length vs -> values (zip ks vs) = vs.
Proof.
  unfold values. revert vs.
  induction ks as [|k ks IH]; intros [|v vs] Hlen; simpl in *; try done.
  f_equal. apply IH. lia.
Qed.

(** C8: when the source names are distinct and the strategy returns one
    tensor per source in its first batch entry, the returned mapping has
    the source names as its keys, in the declared order, the [i]-th key
    paired with the [i]-th returned tensor (denormalized). *)
Theorem separate_tensor_source_mapping apply_model self wav bag out0 rest :
  let m := mean (mean_dim0 wav) in
  let s := std (mean_dim0 wav) in
  let normalized := map (map (fun x => fdiv (fsub x m) s)) wav in
  let stems := map (map (map (fun y => fadd (fmul y s) m))) out0 in
  configured self -> context_bag self = Some bag ->
  NoDup (sources (_model self)) ->
  (forall call, apply_model_call self normalized = Ok call ->
                apply_model call = Ok (out0 :: rest)) ->
  length out0 = length (sources (_model self)) ->
  exists first d,
    separate_tensor apply_model self wav = Ok (first, d) /\
    keys d = sources (_model self) /\
    values d = stems /\
    d = zip (sources (_model self)) stems.
Proof.
  intros m s normalized stems Hc Hbag Hnd Hout Hlen.
  destruct (apply_model_call_ready self bag normalized Hc Hbag)
    as (call & Hcall & _).
  pose proof (separate_tensor_unfold apply_model self wav) as Hsep.
  cbv zeta in Hsep. fold m s normalized in Hsep.
  rewrite Hcall in Hsep. simpl in Hsep.
  rewrite (Hout call Hcall) in Hsep. simpl in Hsep. fold stems in Hsep.
  assert (Hl : length (sources (_model self)) = length stems)
    by (unfold stems; by rewrite length_map).
  assert (Hk : keys (zip (sources (_model self)) stems)
               = sources (_model self)) by (apply keys_zip, Nat.eq_le_incl, Hl).
  rewrite dict_of_pairs_nodup in Hsep by (by rewrite Hk).
  eexists _, _. split; [exact Hsep|].
  split; [done|]. split; [by apply values_zip|done].
Qed.

(** C9: on a ready instance and a waveform with at least one channel,
    [separate_tensor] applies the strategy, whichever it is, to one
    call, and the outcome of the strategy on that call decides the
    result.  That call carries the normalized waveform and the caller's
    context with [audio_length] set to the number of sample frames of
    the input, whatever the caller had stored under that key; the other
    keys are the caller's. *)
Theorem separate_tensor_callback_context self wav bag :
  let m := mean (mean_dim0 wav) in
  let s := std (mean_dim0 wav) in
  let normalized := map (map (fun x => fdiv (fsub x m) s)) wav in
  configured self -> context_bag self = Some bag -> wav <> [] ->
  exists call,
    apply_model_call self normalized = Ok call /\
    am_mix call = [normalized] /\
    am_callback_arg call =
      <["audio_length" := PyInt (Z.of_nat (length (hd [] wav)))]> bag /\
    am_callback_arg call !! "audio_length" =
      Some (PyInt (Z.of_nat (length (hd [] wav)))) /\
    (forall key, key <> "audio_length" ->
                 am_callback_arg call !! key = bag !! key) /\
    (forall apply_model,
        separate_tensor apply_model self wav =
        (out <- apply_model call ;;
         match out with
         | [] => Raise IndexError
         | out0 :: _ =>
             Ok (normalized,
                 dict_of_pairs
                   (zip (sources (_model self))
                        (map (map (map (fun y => fadd (fmul y s) m)))
                             out0)))
         end)).
Proof.
  intros m s normalized Hc Hbag Hwav.
  destruct (apply_model_call_ready self bag normalized Hc Hbag)
    as (call & Hcall & _ & Hmix & Hctx & _).
  unfold normalized in Hctx. rewrite shape1_map in Hctx. fold normalized in Hctx.
  replace (shape1 wav) with (length (hd [] wav)) in Hctx by (by destruct wav).
  exists call. split; [done|]. split; [done|]. split; [done|]. rewrite Hctx.
  split; [by rewrite lookup_insert_eq|].
  split; [by intros key Hk; rewrite lookup_insert_ne|].
  intros apply_model.
  rewrite separate_tensor_unfold. cbv zeta. fold m s normalized.
  by rewrite Hcall.
Qed.

End SeparateTensor.

(** ** The default instance *)

Lemma stub_separator_configured : configured stub_separator.
Proof. apply update_parameter_configured. Qed.

Lemma stub_separator_model : _model stub_separator = stub_model.
Proof. apply update_parameter_fields. Qed.

Lemma bind_Ok {A B} (a : A) (k : A -> res B) : bind (Ok a) k = k a.
Proof. reflexivity. Qed.

Lemma stub_separator_bag : context_bag stub_separator = Some ∅.
Proof. vm_compute. reflexivity. Qed.

Lemma stub_separator_ready : ready stub_separator.
Proof.
  split; [apply stub_separator_configured|].
  exists ∅. exact stub_separator_bag.
Qed.

(** ** Not-a-number in exact arithmetic *)

Lemma lift2_None_r (f : R -> R -> R) (a : Exact.xreal) :
  Exact.lift2 f a None = None.
Proof. by destruct a. Qed.

Lemma xdiv_by_zero (a : Exact.xreal) : Exact.xdiv a (Some 0%R) = None.
Proof. destruct a; simpl; [|done]. by destruct (Req_dec_T 0 0). Qed.

(** ** The error of the round trip *)

Section Rounding.
Local Open Scope R_scope.

Lemma Rabs_via (y w z : R) : Rabs (y - z) <= Rabs (y - w) + Rabs (w - z).
Proof.
  replace (y - z) with ((y - w) + (w - z)) by lra. apply Rabs_triang.
Qed.

Lemma Rabs_grow (y z : R) : Rabs y <= Rabs (y - z) + Rabs z.
Proof.
  replace y with ((y - z) + z) at 1 by lra. apply Rabs_triang.
Qed.

(** One more rounding within [u]: the relative error [e] of [t] against
    [r] becomes [e + u + u * e]. *)
Lemma rounding_step (u e t t' r : R) :
  0 <= u ->
  Rabs (t - r) <= e * Rabs r ->
  Rabs (t' - t) <= u * Rabs t ->
  Rabs (t' - r) <= (e + u + u * e) * Rabs r.
Proof.
  intros Hu Ht Ht'.
  pose proof (Rabs_via t' t r). pose proof (Rabs_grow t r).
  pose proof (Rabs_pos r). pose proof (Rabs_pos t).
  nra.
Qed.

(** The error of subtracting [m], dividing by [s], multiplying by [s]
    and adding [m], each operation rounded within [u]. *)
Lemma round_trip_error (u x m s a b c d : R) :
  0 <= u -> s <> 0 ->
  Rabs (a - (x - m)) <= u * Rabs (x - m) ->
  Rabs (b - a / s) <= u * Rabs (a / s) ->
  Rabs (c - b * s) <= u * Rabs (b * s) ->
  Rabs (d - (c + m)) <= u * Rabs (c + m) ->
  Rabs (d - x) <= ((1 + u) ^ 4 - 1) * Rabs (x - m) + u * Rabs m.
Proof.
  intros Hu Hs Ha Hb Hc Hd.
  set (r := x - m) in *.
  assert (Hbs : Rabs (b * s - a) <= u * Rabs a).
  { replace (b * s - a) with ((b - a / s) * s) by (by field).
    rewrite Rabs_mult.
    replace (Rabs a) with (Rabs (a / s) * Rabs s)
      by (rewrite <- Rabs_mult; f_equal; by field).
    pose proof (Rabs_pos s). nra. }
  assert (H1 : Rabs (a - r) <= (0 + u + u * 0) * Rabs r) by lra.
  pose proof (rounding_step u _ a (b * s) r Hu H1 Hbs) as H2.
  pose proof (rounding_step u _ (b * s) c r Hu H2 Hc) as H3.
  pose proof (Rabs_grow c r) as Hcr.
  pose proof (Rabs_triang c m) as Hcm.
  replace (d - x) with ((d - (c + m)) + (c - r)) by (unfold r; lra).
  pose proof (Rabs_triang (d - (c + m)) (c - r)) as Htri.
  pose proof (Rabs_pos r). pose proof (Rabs_pos m). pose proof (Rabs_pos c).
  assert (Hc3 : Rabs (c - r) <= ((1 + u) ^ 3 - 1) * Rabs r).
  { eapply Rle_trans; [exact H3|]. apply Req_le. ring. }
  assert (Hcabs : Rabs c <= (1 + u) ^ 3 * Rabs r) by lra.
  assert (Hd' : Rabs (d - (c + m)) <= u * (1 + u) ^ 3 * Rabs r + u * Rabs m).
  { eapply Rle_trans; [exact Hd|]. nra. }
  eapply Rle_trans; [exact Htri|].
  apply Rle_trans
    with (u * (1 + u) ^ 3 * Rabs r + u * Rabs m + ((1 + u) ^ 3 - 1) * Rabs r);
    [lra|].
  apply Req_le. ring.
Qed.

End Rounding.

Lemma zip_constant {A} (names : list string) (x : A) :
  zip names (map (fun _ => x) names) = map (fun s => (s, x)) names.
Proof. induction names as [|n names IH]; simpl; [done|]. by rewrite IH. Qed.

Lemma Forall2_map_self {A} (P : A -> A -> Prop) (f : A -> A) (l : list A) :
  Forall (fun x => P (f x) x) l -> Forall2 P (map f l) l.
Proof. induction 1; simpl; by constructor. Qed.

Section RoundTrip.
Context {F : Type} {SF : Scalar F} {VF : Valued F}.

(** A sample whose four operations are rounded within [u] comes back
    within the tolerance. *)
Lemma round_trip_rounds_close (u sv : R) (m s x : F) :
  (0 <= u)%R -> value s = Some sv -> sv <> 0%R ->
  round_trip_rounds u m s x ->
  close u m (fadd (fmul (fdiv (fsub x m) s) s) m) x.
Proof.
  intros Hu Hsv Hs0 (Hsub & Hdiv & Hmul & Hadd).
  destruct Hsub as (vx & vm & va & Hx & Hm & Ha & Hea).
  destruct Hdiv as (va' & vs & vb & Ha' & Hs & Hb & Heb).
  destruct Hmul as (vb' & vs' & vc & Hb' & Hs' & Hc & Hec).
  destruct Hadd as (vc' & vm' & vd & Hc' & Hm' & Hd & Hed).
  assert (va' = va) as -> by congruence.
  assert (vb' = vb) as -> by congruence.
  assert (vc' = vc) as -> by congruence.
  assert (vm' = vm) as -> by congruence.
  assert (vs = sv) as -> by congruence.
  assert (vs' = sv) as -> by congruence.
  exists vd, vx, vm. repeat split; try done.
  by apply (round_trip_error u vx vm sv va vb vc vd).
Qed.

(** C3 (as amended): on a ready instance and with the identity
    strategy, when the reference deviation is a finite number other
    than zero and each of the four operations on each sample (subtract
    the reference mean, divide by the reference deviation, multiply by
    it, add the mean) returns a finite number within a relative error
    of [u], every source of the result is one waveform each sample of
    which is within [((1 + u)^4 - 1) * |x - m| + u * |m|] of the input
    sample [x], for the reference mean [m]. *)
Theorem normalization_round_trip (self : Separator) (wav : Tensor2 F)
    (u s : R) :
  ready self ->
  (0 <= u)%R ->
  value (std (mean_dim0 wav)) = Some s ->
  s <> 0%R ->
  Forall (Forall (round_trip_rounds u (mean (mean_dim0 wav))
                    (std (mean_dim0 wav)))) wav ->
  round_trip u self wav.
Proof.
  intros [Hc [bag Hbag]] Hu Hs Hs0 Hrounds.
  set (fm := mean (mean_dim0 wav)) in *.
  set (fs := std (mean_dim0 wav)) in *.
  set (normalized := map (map (fun x => fdiv (fsub x fm) fs)) wav).
  set (back := map (map (fun x => fadd (fmul (fdiv (fsub x fm) fs) fs) fm))
                   wav).
  destruct (apply_model_call_ready self bag normalized Hc Hbag)
    as (call & Hcall & Hmodel & Hmix & _).
  exists normalized, back. split.
  - rewrite separate_tensor_unfold. cbv zeta. fold fm fs normalized.
    rewrite Hcall. simpl. unfold identity_strategy.
    rewrite Hmix, Hmodel. simpl. do 3 f_equal.
    rewrite map_map.
    rewrite (map_ext _ (fun _ => back)).
    + apply zip_constant.
    + intros _. unfold normalized, back. rewrite map_map.
      apply map_ext. intros row. by rewrite map_map.
  - unfold back. apply Forall2_map_self.
    eapply Forall_impl; [exact Hrounds|]. intros row Hrow. simpl.
    apply Forall2_map_self.
    eapply Forall_impl; [exact Hrow|]. intros x Hx. simpl.
    by apply (round_trip_rounds_close u s).
Qed.

End RoundTrip.

(** ** The round trip in binary32 *)

Lemma pow2_exponent (e : Z) (k : R) :
  (e <? 0)%Z = true -> IZR (2 ^ (- e)) = k -> Binary32.pow2 e = (/ k)%R.
Proof.
  intros He <-. unfold Binary32.pow2.
  destruct (Z.leb_spec 0 e); [|done]. apply Z.ltb_lt in He. lia.
Qed.

(** The value of a closed binary32 expression. *)
Ltac float_value :=
  match goal with
  | |- value ?f = Some _ =>
      let f' := eval vm_compute in f in
      change f with f'; reflexivity
  end.

Ltac pow2_values :=
  rewrite ?(pow2_exponent (-21) 2097152 eq_refl eq_refl),
          ?(pow2_exponent (-22) 4194304 eq_refl eq_refl),
          ?(pow2_exponent (-23) 8388608 eq_refl eq_refl),
          ?(pow2_exponent (-24) 16777216 eq_refl eq_refl),
          ?(pow2_exponent (-25) 33554432 eq_refl eq_refl),
          ?(pow2_exponent (-26) 67108864 eq_refl eq_refl).

(** A closed binary32 operation is rounded within the bound. *)
Ltac rounding :=
  unfold rounds; eexists _, _, _;
  split; [float_value|]; split; [float_value|]; split; [float_value|];
  pow2_values;
  unfold Rabs; repeat destruct Rcase_abs; lra.

(** Witness for C3: two channels in binary32 with reference mean 3 and
    reference deviation 3, and the unit roundoff [2^-24]; the
    normalized samples are thirds, which are rounded. *)
Lemma normalization_round_trip_witness :
  round_trip (/ 16777216) stub_separator thirds32.
Proof.
  apply (normalization_round_trip stub_separator thirds32 (/ 16777216)
           (1 * 12582912 * Binary32.pow2 (-22))).
  - exact stub_separator_ready.
  - lra.
  - float_value.
  - pow2_values. lra.
  - repeat constructor; rounding.
Defined.

(** Counterexample to C3 as stated: on silence, in binary32, the
    reference deviation is zero, the division yields NaN, and no source
    comes back as the input within any tolerance. *)
Lemma normalization_round_trip_fails_on_silence :
  ~ exists u, round_trip u stub_separator silence32.
Proof.
  intros (u & first & back & Hsep & Hclose).
  assert (Hnan : separate_tensor identity_strategy stub_separator silence32 =
                 Ok ([[S754_nan; S754_nan; S754_nan]],
                     [("drums", [[S754_nan; S754_nan; S754_nan]]);
                      ("bass", [[S754_nan; S754_nan; S754_nan]]);
                      ("other", [[S754_nan; S754_nan; S754_nan]]);
                      ("vocals", [[S754_nan; S754_nan; S754_nan]])]))
    by (vm_compute; reflexivity).
  rewrite Hnan, stub_separator_model in Hsep.
  clear Hnan. vm_compute in Hsep.
  assert (Hback : back = [[S754_nan; S754_nan; S754_nan]]) by congruence.
  clear Hsep. subst back.
  apply Forall2_cons_1 in Hclose as [Hrow _].
  apply Forall2_cons_1 in Hrow as [(vy & _ & _ & Hvy & _) _].
  discriminate Hvy.
Qed.

(** ** Evaluation in binary32 *)

(** C1: on the one-channel ramp 0, 2, 4 (mean 2, deviation 2) the first
    element of the result is the normalized wave -1, 0, 1, which is not
    the input. *)
Theorem separate_tensor_returns_normalized_wave :
  exists d,
    separate_tensor identity_strategy stub_separator ramp32 =
    Ok ([[Binary32.of_Z (-1); Binary32.of_Z 0; Binary32.of_Z 1]], d) /\
    [[Binary32.of_Z (-1); Binary32.of_Z 0; Binary32.of_Z 1]] <> ramp32.
Proof.
  eexists. split.
  - vm_compute. reflexivity.
  - vm_compute. discriminate.
Qed.

(** In binary32 the identity strategy gives the ramp back under every
    source name. *)
Example ramp32_sources :
  exists first,
    separate_tensor identity_strategy stub_separator ramp32 =
    Ok (first, [("drums", ramp32); ("bass", ramp32);
                ("other", ramp32); ("vocals", ramp32)]).
Proof. eexists. vm_compute. reflexivity. Qed.

(** In binary32 silence comes back as NaN. *)
Example silence32_sources :
  let nan := [[S754_nan; S754_nan; S754_nan]] in
  separate_tensor identity_strategy stub_separator silence32 =
  Ok (nan, [("drums", nan); ("bass", nan); ("other", nan); ("vocals", nan)]).
Proof. vm_compute. reflexivity. Qed.

(** Two channels, the first silent: both are shifted and scaled by the
    statistics of their average 0, 2, 4, so the silent channel becomes
    the constant -1 and the other one -1, 1, 3. *)
Example two_channels_share_statistics :
  exists d,
    separate_tensor identity_strategy stub_separator
      [[Binary32.of_Z 0; Binary32.of_Z 0; Binary32.of_Z 0];
       [Binary32.of_Z 0; Binary32.of_Z 4; Binary32.of_Z 8]] =
    Ok ([[Binary32.of_Z (-1); Binary32.of_Z (-1); Binary32.of_Z (-1)];
         [Binary32.of_Z (-1); Binary32.of_Z 1; Binary32.of_Z 3]], d).
Proof. eexists. vm_compute. reflexivity. Qed.

(** Witness for C8: the default instance, the identity strategy and the
    ramp. *)
Lemma separate_tensor_source_mapping_witness :
  NoDup (sources (_model stub_separator)) /\
  exists first d,
    separate_tensor identity_strategy stub_separator ramp32 = Ok (first, d) /\
    keys d = ["drums"; "bass"; "other"; "vocals"] /\
    values d = [ramp32; ramp32; ramp32; ramp32].
Proof.
  assert (Hnd : NoDup (sources (_model stub_separator))).
  { rewrite stub_separator_model. apply (bool_decide_unpack _).
    vm_compute. exact I. }
  split; [exact Hnd|].
  destruct (separate_tensor_source_mapping identity_strategy stub_separator
              ramp32 ∅
              (map (fun _ => [[Binary32.of_Z (-1); Binary32.of_Z 0;
                               Binary32.of_Z 1]])
                   (sources stub_model)) [])
    as (first & d & Hsep & Hkeys & Hvalues & _).
  - exact stub_separator_configured.
  - exact stub_separator_bag.
  - exact Hnd.
  - intros call Hcall. vm_compute in Hcall. injection Hcall as <-.
    vm_compute. reflexivity.
  - rewrite stub_separator_model. reflexivity.
  - exists first, d. split; [exact Hsep|].
    rewrite Hkeys, Hvalues, stub_separator_model.
    split; vm_compute; reflexivity.
Defined.

Lemma stub_separator_with_context_configured :
  configured stub_separator_with_context.
Proof. apply update_parameter_configured. Qed.

Lemma stub_separator_with_context_bag :
  context_bag stub_separator_with_context = Some stub_context.
Proof. vm_compute. reflexivity. Qed.

(** Witness for C9: the caller's context has [audio_length] 7 and a
    [job] entry; the ramp has three sample frames, and a strategy that
    reports the [audio_length] it is given reports 3. *)
Lemma separate_tensor_callback_context_witness :
  stub_context !! "audio_length" = Some (PyInt 7) /\
  (exists call : ApplyModelCall spec_float,
     am_callback_arg call !! "audio_length" = Some (PyInt 3) /\
     am_callback_arg call !! "job" = Some (PyStr "demo")) /\
  separate_tensor reporting_strategy stub_separator_with_context ramp32 =
  Raise (OtherException "audio_length 3").
Proof.
  split; [vm_compute; reflexivity|].
  destruct (separate_tensor_callback_context stub_separator_with_context
              ramp32 stub_context
              stub_separator_with_context_configured
              stub_separator_with_context_bag)
    as (call & _ & _ & _ & Hlen & Hother & Hsep); [discriminate|].
  split.
  - exists call. split; [exact Hlen|].
    rewrite Hother by discriminate. vm_compute. reflexivity.
  - rewrite (Hsep reporting_strategy). unfold reporting_strategy.
    rewrite Hlen. reflexivity.
Defined.

(** ** Loading audio *)

Section LoadAudio.
Context {F : Type}.
Variable AudioFile_read : string -> Z -> Z -> res (Tensor2 F).
Variable ta_load : string -> res (Tensor2 F * Z).
Variable convert_audio : Tensor2 F -> Z -> Z -> Z -> res (Tensor2 F).

#[local] Abbreviation load := (_load_audio AudioFile_read ta_load convert_audio).

Lemma load_ffmpeg_handled self track e text :
  ffmpeg_failure_text e = Some text ->
  AudioFile_read track (_samplerate self) (_audio_channels self) = Raise e ->
  load_ffmpeg AudioFile_read self track = Ok ([("ffmpeg", text)], None).
Proof.
  intros Htext Hread. unfold load_ffmpeg. rewrite Hread.
  destruct e; try discriminate Htext; injection Htext as <-; reflexivity.
Qed.

(** A [RuntimeError] without arguments makes the handler itself fail:
    [err.args[0]] raises [IndexError]. *)
Lemma load_audio_runtime_error_without_args self track e text :
  ffmpeg_failure_text e = Some text ->
  AudioFile_read track (_samplerate self) (_audio_channels self) = Raise e ->
  ta_load track = Raise (RuntimeError []) ->
  load self track = Raise IndexError.
Proof.
  intros Htext Hread Hta. unfold _load_audio.
  rewrite (load_ffmpeg_handled self track e text Htext Hread). simpl.
  unfold load_torchaudio. simpl. by rewrite Hta.
Qed.

(** A failure of FFmpeg that is not one of the two handled ones leaves
    [_load_audio] as it is, and torchaudio is not tried. *)
Lemma load_audio_unhandled_failure self track e :
  ffmpeg_failure_text e = None ->
  AudioFile_read track (_samplerate self) (_audio_channels self) = Raise e ->
  load self track = Raise e.
Proof.
  intros Htext Hread. unfold _load_audio, load_ffmpeg. rewrite Hread.
  by destruct e.
Qed.

(** C5 (as amended): every outcome of [_load_audio].  When FFmpeg
    returns a waveform, that waveform is returned.  When FFmpeg raises
    [FileNotFoundError] or [CalledProcessError], torchaudio is tried:
    when it returns, the result is that of the conversion of its
    waveform; when it raises a [RuntimeError] with a message,
    [LoadAudioError] is raised with one line per backend, FFmpeg first,
    the lines joined by a newline, each line naming the backend and
    giving its failure text, which is a fixed text for the kind of
    failure of FFmpeg and the message of the error of torchaudio.  Every
    other exception of FFmpeg or of torchaudio is raised as it is, and a
    [RuntimeError] without arguments gives [IndexError]. *)
Theorem load_audio_aggregates_failures self track :
  let after_ffmpeg_failure (text : string) : res (Tensor2 F) :=
    match ta_load track with
    | Ok (wav, sr) =>
        convert_audio wav sr (_samplerate self) (_audio_channels self)
    | Raise (RuntimeError (msg :: _)) =>
        Raise (LoadAudioError
                 ("When trying to load using ffmpeg, got the following error: "
                  +:+ text +:+ String "010"%char EmptyString +:+
                  "When trying to load using torchaudio, got the following error: "
                  +:+ msg))
    | Raise (RuntimeError []) => Raise IndexError
    | Raise e => Raise e
    end in
  load self track =
  match AudioFile_read track (_samplerate self) (_audio_channels self) with
  | Ok wav => Ok wav
  | Raise (FileNotFoundError _) =>
      after_ffmpeg_failure "FFmpeg is not installed."
  | Raise (CalledProcessError _) =>
      after_ffmpeg_failure "FFmpeg could not read the file."
  | Raise e => Raise e
  end.
Proof.
  intros after. unfold after, _load_audio, load_ffmpeg, load_torchaudio.
  destruct (AudioFile_read track _ _) as [wav|e]; [reflexivity|].
  destruct e; try reflexivity; simpl;
    (destruct (ta_load track) as [[wav sr]|e']; simpl;
     [by destruct (convert_audio wav sr _ _)|];
     destruct e' as [| |[|msg rest]| | | | | | |]; reflexivity).
Qed.

End LoadAudio.

(** Witness for C5: FFmpeg is not installed and torchaudio does not
    recognise the format; and FFmpeg is not installed but torchaudio
    decodes the file. *)
Lemma load_audio_aggregates_failures_witness :
  (_load_audio ffmpeg_missing torchaudio_unknown_format convert_nothing
     stub_separator "song.xyz" : res (Tensor2 spec_float)) =
  Raise (LoadAudioError
           ("When trying to load using ffmpeg, got the following error: "
            +:+ "FFmpeg is not installed." +:+ newline +:+
            "When trying to load using torchaudio, got the following error: "
            +:+ "Format not recognised.")) /\
  _load_audio ffmpeg_missing (torchaudio_returns ramp32) convert_nothing
    stub_separator "song.wav" = Ok ramp32.
Proof.
  split.
  - rewrite (load_audio_aggregates_failures ffmpeg_missing
               torchaudio_unknown_format convert_nothing stub_separator
               "song.xyz").
    reflexivity.
  - rewrite (load_audio_aggregates_failures ffmpeg_missing
               (torchaudio_returns ramp32) convert_nothing stub_separator
               "song.wav").
    reflexivity.
Defined.

(** Counterexample to C5 as stated.  Both backends fail, FFmpeg because
    it may not run: the error is the one of FFmpeg, not a
    [LoadAudioError].  And both backends fail, FFmpeg because [ffprobe]
    is not found: the message of the [LoadAudioError] has the fixed
    text for a missing FFmpeg and not the failure text of the
    backend. *)
Lemma load_audio_error_without_backend_text :
  (_load_audio ffmpeg_denied torchaudio_unknown_format convert_nothing
     stub_separator "song.xyz" : res (Tensor2 spec_float)) =
  Raise (OtherException "PermissionError") /\
  (@ffmpeg_missing spec_float "song.xyz" 44100 2 =
   Raise (FileNotFoundError "No such file or directory: 'ffprobe'") /\
   exists msg,
     (_load_audio ffmpeg_missing torchaudio_unknown_format convert_nothing
        stub_separator "song.xyz" : res (Tensor2 spec_float)) =
     Raise (LoadAudioError msg) /\
     index 0 "No such file or directory: 'ffprobe'" msg = None /\
     index 0 "FFmpeg is not installed." msg = Some 59).
Proof.
  split; [reflexivity|]. split; [reflexivity|].
  eexists. split; [reflexivity|]. split; vm_compute; reflexivity.
Qed.

(** ** Letter case and path suffixes *)

Section LowerCase.
Import Pathlib.

Lemma lower_ascii_slash c : Ascii.eqb (lower_ascii c) "/" = Ascii.eqb c "/".
Proof. destruct c as [[] [] [] [] [] [] [] []]; reflexivity. Qed.

Lemma lower_ascii_dot c : Ascii.eqb (lower_ascii c) "." = Ascii.eqb c ".".
Proof. destruct c as [[] [] [] [] [] [] [] []]; reflexivity. Qed.

Lemma lower_length s : String.length (lower s) = String.length s.
Proof. induction s as [|c s IH]; simpl; congruence. Qed.

Lemma lower_eq_empty s : String.eqb (lower s) EmptyString = String.eqb s EmptyString.
Proof. by destruct s. Qed.

Lemma lower_eq_dot s : String.eqb (lower s) "." = String.eqb s ".".
Proof.
  destruct s as [|c [|d s]]; simpl; try reflexivity.
  - rewrite lower_ascii_dot. by destruct (Ascii.eqb c ".").
  - rewrite lower_ascii_dot. by destruct (Ascii.eqb c ".").
Qed.

Lemma is_component_lower s : is_component (lower s) = is_component s.
Proof. unfold is_component. by rewrite lower_eq_empty, lower_eq_dot. Qed.

Lemma split_slash_lower s : split_slash (lower s) = map lower (split_slash s).
Proof.
  induction s as [|c s IH]; simpl; [done|].
  rewrite lower_ascii_slash. destruct (Ascii.eqb c "/"); simpl.
  - by rewrite IH.
  - rewrite IH. by destruct (split_slash s).
Qed.

Lemma filter_component_lower (l : list string) :
  List.filter is_component (map lower l) =
  map lower (List.filter is_component l).
Proof.
  induction l as [|c l IH]; simpl; [done|].
  rewrite is_component_lower. destruct (is_component c); simpl; by rewrite IH.
Qed.

Lemma last_lower (l : list string) :
  List.last (map lower l) EmptyString = lower (List.last l EmptyString).
Proof.
  induction l as [|c l IH]; simpl; [done|].
  destruct l; simpl in *; [done|]. by rewrite IH.
Qed.

Lemma name_lower s : name (of_string (lower s)) = lower (name (of_string s)).
Proof.
  unfold name, of_string. simpl.
  by rewrite split_slash_lower, filter_component_lower, last_lower.
Qed.

Lemma rfind_dot_lower s : rfind "." (lower s) = rfind "." s.
Proof.
  induction s as [|c s IH]; simpl; [done|].
  by rewrite IH, lower_ascii_dot.
Qed.

Lemma substring_lower i n s :
  substring i n (lower s) = lower (substring i n s).
Proof.
  revert i n. induction s as [|c s IH]; intros [|i] [|n]; simpl;
    rewrite ?IH; reflexivity.
Qed.

(** The suffix of the lowered path is the lowered suffix of the path. *)
Lemma suffix_lower s :
  suffix (of_string (lower s)) = lower (suffix (of_string s)).
Proof.
  unfold suffix. rewrite name_lower, rfind_dot_lower, lower_length.
  destruct (rfind "." (name (of_string s))) as [i|]; [|done].
  destruct (_ && _); [|done]. apply substring_lower.
Qed.

Lemma lower_suffix_of_lower_eq p q :
  lower p = lower q ->
  lower (suffix (of_string p)) = lower (suffix (of_string q)).
Proof. intros H. by rewrite <- !suffix_lower, H. Qed.

End LowerCase.

(** ** Saving audio *)

Section SaveAudio.
Context {F : Type}.
Variable prevent_clip : Tensor2 F -> ClipMode -> res (Tensor2 F).
Implicit Types (wav : Tensor2 F) (path : string) (clip : ClipMode).

(** After clip prevention, the branch of [save_audio] is a function of
    the lowered suffix. *)
Lemma save_audio_by_suffix wav path samplerate bitrate clip bits as_float :
  let p := Pathlib.of_string path in
  let sfx := lower (Pathlib.suffix p) in
  save_audio prevent_clip wav path samplerate bitrate clip bits as_float =
  (clipped <- prevent_clip wav clip ;;
   if String.eqb sfx ".mp3" then
     Ok (encode_mp3 clipped p samplerate bitrate true)
   else if String.eqb sfx ".wav" then
     Ok (ta_save (Pathlib.str p) clipped samplerate
           (Some (if as_float then "PCM_F" else "PCM_S"))
           (if as_float then 32%Z else bits))
   else if String.eqb sfx ".flac" then
     Ok (ta_save (Pathlib.str p) clipped samplerate None bits)
   else Raise (ValueError ("Invalid suffix for path: " +:+ sfx))).
Proof.
  intros p sfx. unfold save_audio.
  destruct (prevent_clip wav clip) as [clipped|e]; simpl; [|done].
  fold p. fold sfx.
  destruct (String.eqb sfx ".mp3"); [done|].
  destruct (String.eqb sfx ".wav"); [|done].
  by destruct as_float.
Qed.

(** C6: for a [.wav] destination, once clip prevention has returned,
    the encoding is 32-bit float (["PCM_F"], 32 bits) when [as_float] is
    set, whatever bit depth was requested, and signed PCM (["PCM_S"]) at
    the requested depth otherwise; for a [.flac] destination the
    requested depth is used and [as_float] changes nothing.  When clip
    prevention raises, [save_audio] raises the same error. *)
Theorem save_audio_encoding wav path samplerate bitrate clip bits as_float :
  let p := Pathlib.of_string path in
  (lower (Pathlib.suffix p) = ".wav" ->
   save_audio prevent_clip wav path samplerate bitrate clip bits as_float =
   (clipped <- prevent_clip wav clip ;;
    Ok (ta_save (Pathlib.str p) clipped samplerate
          (Some (if as_float then "PCM_F" else "PCM_S"))
          (if as_float then 32%Z else bits)))) /\
  (lower (Pathlib.suffix p) = ".flac" ->
   save_audio prevent_clip wav path samplerate bitrate clip bits as_float =
   (clipped <- prevent_clip wav clip ;;
    Ok (ta_save (Pathlib.str p) clipped samplerate None bits))).
Proof.
  intros p. split; intros Hs; rewrite save_audio_by_suffix; cbv zeta;
    fold p; rewrite Hs; reflexivity.
Qed.

(** C7 (as amended): two destinations that differ in letter case only
    are dispatched alike; a destination whose lowered suffix is [.mp3]
    goes to the MP3 encoder once clip prevention has returned; for a
    destination whose lowered suffix is none of [.mp3], [.wav], [.flac]
    no encoder is called, and [save_audio] raises the error of clip
    prevention when that raises and [ValueError] otherwise, with a
    message that, for an ASCII path, names the lowered suffix. *)
Theorem save_audio_dispatch wav samplerate bitrate clip bits as_float :
  (forall p q,
      lower p = lower q ->
      dispatched (save_audio prevent_clip wav p samplerate bitrate clip bits
                    as_float) =
      dispatched (save_audio prevent_clip wav q samplerate bitrate clip bits
                    as_float)) /\
  (forall path,
      lower (Pathlib.suffix (Pathlib.of_string path)) = ".mp3" ->
      save_audio prevent_clip wav path samplerate bitrate clip bits as_float =
      (clipped <- prevent_clip wav clip ;;
       Ok (encode_mp3 clipped (Pathlib.of_string path) samplerate bitrate
             true))) /\
  (forall path,
      let sfx := lower (Pathlib.suffix (Pathlib.of_string path)) in
      sfx <> ".mp3" -> sfx <> ".wav" -> sfx <> ".flac" ->
      dispatched (save_audio prevent_clip wav path samplerate bitrate clip
                    bits as_float) = None /\
      (forall e,
          prevent_clip wav clip = Raise e ->
          save_audio prevent_clip wav path samplerate bitrate clip bits
            as_float = Raise e) /\
      (forall clipped,
          prevent_clip wav clip = Ok clipped ->
          exists msg,
            save_audio prevent_clip wav path samplerate bitrate clip bits
              as_float = Raise (ValueError msg) /\
            (ascii_only path = true ->
             msg = "Invalid suffix for path: " +:+ sfx))).
Proof.
  split; [|split].
  - intros p q Hpq. rewrite !save_audio_by_suffix. cbv zeta.
    rewrite (lower_suffix_of_lower_eq p q Hpq).
    destruct (prevent_clip wav clip) as [clipped|e]; simpl; [|done].
    repeat (destruct (String.eqb _ _); [reflexivity|]). reflexivity.
  - intros path Hs. rewrite save_audio_by_suffix. cbv zeta.
    rewrite Hs. reflexivity.
  - intros path sfx H1 H2 H3.
    rewrite save_audio_by_suffix. cbv zeta. fold sfx.
    apply String.eqb_neq in H1, H2, H3. rewrite H1, H2, H3.
    split; [by destruct (prevent_clip wav clip)|]. split.
    + intros e He. by rewrite He.
    + intros clipped Hclip. rewrite Hclip. simpl. by eexists.
Qed.

End SaveAudio.

(** Witness for C6: [out.wav] with [as_float] and 16 bits requested is
    written as 32-bit float; [out.flac] with 24 bits requested is
    written at 24 bits. *)
Lemma save_audio_encoding_witness :
  save_audio clip_nothing ramp32 "out.wav" 44100 320 Rescale 16 true =
  Ok (ta_save "out.wav" ramp32 44100 (Some "PCM_F") 32) /\
  save_audio clip_nothing ramp32 "out.flac" 44100 320 Rescale 24 false =
  Ok (ta_save "out.flac" ramp32 44100 None 24).
Proof.
  split.
  - rewrite (proj1 (save_audio_encoding clip_nothing ramp32 "out.wav"
                      44100 320 Rescale 16 true)); reflexivity.
  - rewrite (proj2 (save_audio_encoding clip_nothing ramp32 "out.flac"
                      44100 320 Rescale 24 false)); reflexivity.
Defined.

(** Witness for C7: [Take.MP3] is dispatched like [take.mp3], to the MP3
    encoder, and [take.ogg] is refused. *)
Lemma save_audio_dispatch_witness :
  dispatched (save_audio clip_nothing ramp32 "Take.MP3" 44100 320 Rescale 16
                false) =
  dispatched (save_audio clip_nothing ramp32 "take.mp3" 44100 320 Rescale 16
                false) /\
  save_audio clip_nothing ramp32 "Take.MP3" 44100 320 Rescale 16 false =
  Ok (encode_mp3 ramp32 (Pathlib.of_string "Take.MP3") 44100 320 true) /\
  save_audio clip_nothing ramp32 "take.ogg" 44100 320 Rescale 16 false =
  Raise (ValueError "Invalid suffix for path: .ogg").
Proof.
  destruct (save_audio_dispatch clip_nothing ramp32 44100 320 Rescale 16 false)
    as (Hcase & Hmp3 & Hother).
  split; [|split].
  - apply Hcase. reflexivity.
  - rewrite Hmp3; reflexivity.
  - destruct (Hother "take.ogg") as (_ & _ & Hmsg);
      [vm_compute; discriminate..|].
    destruct (Hmsg ramp32 eq_refl) as (msg & -> & Hascii).
    by rewrite (Hascii eq_refl).
Defined.

(** Counterexample to C7 as stated: a waveform of two channels without
    sample frames, saved to [take.ogg] with the default clip mode; clip
    prevention raises before the suffix is looked at, and the error is
    not [ValueError]. *)
Lemma save_audio_clip_error_before_suffix :
  save_audio clip_checked ([[]; []] : Tensor2 spec_float) "take.ogg"
    44100 320 Rescale 16 false =
  Raise (RuntimeError
           ["max(): Expected reduction dim to be specified for input.numel() == 0."]) /\
  lower (Pathlib.suffix (Pathlib.of_string "take.ogg")) = ".ogg".
Proof. split; reflexivity. Qed.

(** ** Further properties of the configuration *)

Section UpdateParameterMore.
Implicit Types (self : Separator) (p q : Parameters) (attr : string).

Lemma update_parameter_eq p self s' :
  (forall attr, attrs (update_parameter p self) !! attr = attrs s' !! attr) ->
  _name s' = _name self -> _repo s' = _repo self -> _model s' = _model self ->
  _audio_channels s' = _audio_channels self ->
  _samplerate s' = _samplerate self ->
  update_parameter p self = s'.
Proof.
  intros Hattrs Hn Hr Hm Hc Hs.
  destruct (update_parameter_fields p self) as (? & ? & ? & ? & ?).
  apply separator_eq; congruence.
Qed.

Lemma config_attrs_elem attr :
  attr ∈ config_attrs <-> is_Some (supplied no_parameters attr).
Proof.
  unfold config_attrs, supplied. rewrite !elem_of_cons, elem_of_nil.
  split.
  - intros [->|[->|[->|[->|[->|[->|[->|[->|[->|[]]]]]]]]]]; by eexists.
  - intros [v Hv].
    repeat match type of Hv with
           | context [String.eqb attr ?s] =>
               destruct (String.eqb_spec attr s); [subst; tauto|]
           end.
    discriminate.
Qed.

Lemma accepted_config p attr v : accepted p attr = Some v -> attr ∈ config_attrs.
Proof.
  unfold accepted. intros H. apply config_attrs_elem.
  unfold supplied in *.
  repeat match type of H with
         | context [String.eqb attr ?s] =>
             destruct (String.eqb attr s); [by eexists|]
         end.
  discriminate.
Qed.

Lemma accepted_no_parameters attr : accepted no_parameters attr = None.
Proof.
  unfold accepted, supplied.
  repeat (destruct (String.eqb attr _); [reflexivity|]). reflexivity.
Qed.

End UpdateParameterMore.

(** X1: [update_parameter] is idempotent: the same call made twice
    leaves the instance as the first call left it. *)
Theorem update_parameter_idempotent (p : Parameters) (self : Separator) :
  update_parameter p (update_parameter p self) = update_parameter p self.
Proof.
  apply update_parameter_eq; try reflexivity.
  intros attr.
  rewrite lookup_update_parameter_configured
    by apply update_parameter_configured.
  destruct (accepted p attr) as [v|] eqn:Ha; [|done].
  by rewrite lookup_update_parameter, Ha.
Qed.

(** X2: two calls in a row: an attribute holds the value accepted by the
    second call, else the value accepted by the first, else what it held
    before, [None] if it is a configuration attribute that did not exist. *)
Theorem update_parameter_twice (p q : Parameters) (self : Separator)
    (attr : string) :
  attrs (update_parameter q (update_parameter p self)) !! attr =
  match accepted q attr with
  | Some v => Some v
  | None =>
      match accepted p attr with
      | Some v => Some v
      | None =>
          if bool_decide (attr ∈ config_attrs)
          then Some (default PyNone (attrs self !! attr))
          else attrs self !! attr
      end
  end.
Proof.
  rewrite lookup_update_parameter_configured
    by apply update_parameter_configured.
  destruct (accepted q attr); [done|]. apply lookup_update_parameter.
Qed.

(** X3: two calls that do not both give an accepted value for the same
    attribute can be made in either order. *)
Theorem update_parameter_commutes (p q : Parameters) (self : Separator) :
  (forall attr, accepted p attr = None \/ accepted q attr = None) ->
  update_parameter q (update_parameter p self) =
  update_parameter p (update_parameter q self).
Proof.
  intros Hdisj.
  destruct (update_parameter_fields p (update_parameter q self))
    as (? & ? & ? & ? & ?).
  destruct (update_parameter_fields q self) as (? & ? & ? & ? & ?).
  destruct (update_parameter_fields p self) as (? & ? & ? & ? & ?).
  apply update_parameter_eq; try congruence.
  intros attr.
  rewrite !lookup_update_parameter_configured
    by apply update_parameter_configured.
  rewrite !lookup_update_parameter.
  destruct (Hdisj attr) as [Hp|Hq].
  - rewrite Hp.
    destruct (bool_decide (attr ∈ config_attrs)), (accepted q attr); done.
  - rewrite Hq.
    destruct (bool_decide (attr ∈ config_attrs)), (accepted p attr); done.
Qed.

(** Witness for X3: setting the overlap and setting the callback. *)
Lemma update_parameter_commutes_witness :
  update_parameter (only_callback (PyFunc 0))
    (update_parameter (only_overlap (PyFloat (1 # 2))) stub_separator) =
  update_parameter (only_overlap (PyFloat (1 # 2)))
    (update_parameter (only_callback (PyFunc 0)) stub_separator).
Proof.
  apply update_parameter_commutes.
  intros attr. unfold accepted, supplied. simpl.
  destruct (String.eqb_spec attr "_overlap") as [->|Hne].
  - right. reflexivity.
  - left. repeat (destruct (String.eqb attr _); [reflexivity|]). reflexivity.
Defined.

(** X4: once every configuration attribute exists, a call without
    arguments, or with [None] for each of them, changes nothing. *)
Theorem update_parameter_nothing (self : Separator) :
  configured self -> update_parameter no_parameters self = self.
Proof.
  intros Hc. apply update_parameter_eq; try reflexivity.
  intros attr. rewrite lookup_update_parameter_configured by done.
  by rewrite accepted_no_parameters.
Qed.

(** Witness for X4: the default instance. *)
Lemma update_parameter_nothing_witness :
  update_parameter no_parameters stub_separator = stub_separator.
Proof.
  apply update_parameter_nothing. apply update_parameter_configured.
Defined.

(** The attribute names after a call. *)
Lemma dom_update_parameter (p : Parameters) (self : Separator) :
  dom (attrs (update_parameter p self)) =
  dom (attrs self) ∪ list_to_set config_attrs.
Proof.
  apply set_eq. intros attr.
  rewrite elem_of_union, !elem_of_dom, elem_of_list_to_set.
  rewrite lookup_update_parameter.
  destruct (accepted p attr) as [v|] eqn:Ha.
  - split; [|by eexists]. intros _. right. by eapply accepted_config.
  - case_bool_decide as Hin.
    + split; [by right|by eexists].
    + tauto.
Qed.

(** X5: [update_parameter] removes no attribute, leaves each of the
    nine configuration attributes in existence, and creates no
    attribute but those nine. *)
Theorem update_parameter_attribute_names (p : Parameters) (self : Separator)
    (attr : string) :
  (is_Some (attrs self !! attr) ->
   is_Some (attrs (update_parameter p self) !! attr)) /\
  (attr ∈ config_attrs -> is_Some (attrs (update_parameter p self) !! attr)) /\
  (is_Some (attrs (update_parameter p self) !! attr) ->
   is_Some (attrs self !! attr) \/ attr ∈ config_attrs).
Proof.
  rewrite <- !elem_of_dom, dom_update_parameter, elem_of_union,
    elem_of_list_to_set.
  tauto.
Qed.

(** Witness for X5: the overlap is set on an instance that has one
    attribute of another name. *)
Lemma update_parameter_attribute_names_witness :
  is_Some (attrs (update_parameter (only_overlap (PyFloat (1 # 2)))
                    {| _name := "htdemucs"; _repo := None;
                       _model := stub_model; _audio_channels := 2;
                       _samplerate := 44100;
                       attrs := {["note" := PyInt 1]} |}) !! "note") /\
  is_Some (attrs (update_parameter (only_overlap (PyFloat (1 # 2)))
                    {| _name := "htdemucs"; _repo := None;
                       _model := stub_model; _audio_channels := 2;
                       _samplerate := 44100;
                       attrs := {["note" := PyInt 1]} |}) !! "_jobs").
Proof.
  split.
  - apply (proj1 (update_parameter_attribute_names _ _ "note")).
    cbn [attrs]. rewrite lookup_singleton_eq. by eexists.
  - apply (proj1 (proj2 (update_parameter_attribute_names _ _ "_jobs"))).
    apply (bool_decide_unpack _). vm_compute. exact I.
Defined.

(** ** Construction *)

Section Construction.
Variable get_model : string -> option string -> res (option Model).
Implicit Types (self : Separator) (p : Parameters).

Lemma init_success model repo p m :
  get_model model repo = Ok (Some m) ->
  __init__ get_model model repo p =
  Ok (update_parameter p
        {| _name := model; _repo := repo; _model := m;
           _audio_channels := audio_channels m;
           _samplerate := samplerate m; attrs := ∅ |}).
Proof. intros H. unfold __init__, _load_model. by rewrite H. Qed.

(** X6: the constructor raises [LoadModelError("Failed to load model")]
    when the model lookup returns [None], lets an error of the lookup
    through, and otherwise returns an instance that holds the model and
    exactly the nine configuration attributes, each with the accepted
    argument or [None]. *)
Theorem init_outcomes model repo p :
  (get_model model repo = Ok None ->
   __init__ get_model model repo p =
   Raise (LoadModelError "Failed to load model")) /\
  (forall e, get_model model repo = Raise e ->
             __init__ get_model model repo p = Raise e) /\
  (forall m, get_model model repo = Ok (Some m) ->
     exists self,
       __init__ get_model model repo p = Ok self /\
       Separator_model self = m /\
       dom (attrs self) = list_to_set config_attrs /\
       forall attr, attr ∈ config_attrs ->
         attrs self !! attr = Some (default PyNone (accepted p attr))).
Proof.
  repeat split.
  - intros H. unfold __init__, _load_model. by rewrite H.
  - intros e H. unfold __init__, _load_model. by rewrite H.
  - intros m H. eexists. split; [by apply init_success|].
    split; [apply update_parameter_fields|]. split.
    + rewrite dom_update_parameter. simpl.
      rewrite dom_empty_L. by rewrite (left_id_L ∅ (∪)).
    + intros attr Hin. rewrite lookup_update_parameter. simpl.
      destruct (accepted p attr); [done|].
      by rewrite bool_decide_eq_true_2, lookup_empty.
Qed.

(** X7: on every instance a program can reach, the sample rate and the
    channel count the instance reports are those of the model it
    holds, that model is the one the lookup returned for the name and
    repository of the instance, and the instance has exactly the nine
    configuration attributes. *)
Theorem reachable_invariant self :
  reachable get_model self ->
  Separator_samplerate self = samplerate (Separator_model self) /\
  Separator_audio_channels self = audio_channels (Separator_model self) /\
  get_model (_name self) (_repo self) = Ok (Some (Separator_model self)) /\
  dom (attrs self) = list_to_set config_attrs.
Proof.
  unfold Separator_samplerate, Separator_audio_channels, Separator_model.
  induction 1 as [model repo p self H|p self H IH].
  - apply init_inv in H as (m & Hm & ->).
    destruct (update_parameter_fields p
                {| _name := model; _repo := repo; _model := m;
                   _audio_channels := audio_channels m;
                   _samplerate := samplerate m; attrs := ∅ |})
      as (-> & -> & -> & -> & ->). simpl.
    repeat split; try done.
    rewrite dom_update_parameter. simpl.
    rewrite dom_empty_L. by rewrite (left_id_L ∅ (∪)).
  - destruct IH as (Hs & Hc & Hg & Hd).
    destruct (update_parameter_fields p self) as (-> & -> & -> & -> & ->).
    repeat split; try done.
    rewrite dom_update_parameter, Hd. set_solver.
Qed.

End Construction.

(** Witness for X6: a lookup that finds nothing, and one that finds the
    stub model. *)
Lemma init_outcomes_witness :
  __init__ (fun _ _ => Ok None) "nothing" None (init_defaults false) =
  Raise (LoadModelError "Failed to load model") /\
  exists self,
    __init__ stub_get_model "htdemucs" None (init_defaults false) = Ok self /\
    Separator_model self = stub_model /\
    attrs self !! "_shifts" = Some (PyInt 1) /\
    attrs self !! "_segment" = Some PyNone.
Proof.
  split.
  - apply (proj1 (init_outcomes (fun _ _ => Ok None) "nothing" None
                    (init_defaults false))).
    reflexivity.
  - destruct (proj2 (proj2 (init_outcomes stub_get_model "htdemucs" None
                              (init_defaults false))) stub_model eq_refl)
      as (self & Hinit & Hmodel & _ & Hattrs).
    exists self. split; [exact Hinit|]. split; [exact Hmodel|].
    split; rewrite Hattrs; try reflexivity;
      apply (bool_decide_unpack _); vm_compute; exact I.
Defined.

(** Witness for X7: the default instance after one update. *)
Lemma reachable_invariant_witness :
  Separator_samplerate stub_separator_with_context = 44100%Z /\
  Separator_audio_channels stub_separator_with_context = 2%Z.
Proof.
  destruct (reachable_invariant stub_get_model stub_separator_with_context)
    as (Hs & Hc & _).
  - apply reachable_update.
    apply (reachable_init _ "htdemucs" None (init_defaults false)).
    vm_compute. reflexivity.
  - rewrite Hs, Hc. unfold Separator_model.
    unfold stub_separator_with_context.
    destruct (update_parameter_fields (only_callback_arg_of stub_context)
                stub_separator) as (_ & _ & -> & _).
    rewrite stub_separator_model. split; reflexivity.
Defined.

(** ** Further properties of the loader *)

Section LoadAudioMore.
Context {F : Type}.
Variable AudioFile_read : string -> Z -> Z -> res (Tensor2 F).
Variable ta_load : string -> res (Tensor2 F * Z).
Variable convert_audio : Tensor2 F -> Z -> Z -> Z -> res (Tensor2 F).

#[local] Abbreviation load' :=
  (_load_audio AudioFile_read ta_load convert_audio).

Lemma load_after_ffmpeg_failure self track e text :
  ffmpeg_failure_text e = Some text ->
  AudioFile_read track (_samplerate self) (_audio_channels self) = Raise e ->
  load' self track =
  (st <- load_torchaudio ta_load convert_audio self track
           ([("ffmpeg", text)], None) ;;
   load_result st).
Proof.
  intros Htext Hread. unfold _load_audio, load_ffmpeg. rewrite Hread.
  destruct e; try discriminate Htext; injection Htext as <-; reflexivity.
Qed.

(** X8: an error of the FFmpeg backend that is neither
    [FileNotFoundError] nor [CalledProcessError] leaves [_load_audio]
    unchanged, whatever torchaudio would have done with the file. *)
Theorem load_audio_ffmpeg_error_passes self track e :
  ffmpeg_failure_text e = None ->
  AudioFile_read track (_samplerate self) (_audio_channels self) = Raise e ->
  load' self track = Raise e.
Proof.
  intros Htext Hread. by apply load_audio_unhandled_failure.
Qed.

(** X9: after a handled failure of FFmpeg, an error of torchaudio that
    is not a [RuntimeError] leaves [_load_audio] unchanged, and so does
    an error of the conversion; the failure recorded for FFmpeg is not
    reported then.  A [RuntimeError] without arguments makes the handler
    raise [IndexError]. *)
Theorem load_audio_torchaudio_error_passes self track e text :
  ffmpeg_failure_text e = Some text ->
  AudioFile_read track (_samplerate self) (_audio_channels self) = Raise e ->
  (forall e', is_RuntimeError e' = false -> ta_load track = Raise e' ->
              load' self track = Raise e') /\
  (forall wav sr e',
      ta_load track = Ok (wav, sr) ->
      convert_audio wav sr (_samplerate self) (_audio_channels self)
        = Raise e' ->
      load' self track = Raise e') /\
  (ta_load track = Raise (RuntimeError []) ->
   load' self track = Raise IndexError).
Proof.
  intros Htext Hread.
  rewrite (load_after_ffmpeg_failure self track e text Htext Hread).
  unfold load_torchaudio. simpl. repeat split.
  - intros e' He' Hta. rewrite Hta. by destruct e'.
  - intros wav sr e' Hta Hconv. by rewrite Hta, Hconv.
  - intros Hta. by rewrite Hta.
Qed.

(** X10: when no collaborator raises [LoadAudioError] itself, a
    [LoadAudioError] out of [_load_audio] means that both backends
    failed in a handled way, and its message is the two labelled lines,
    FFmpeg first. *)
Theorem load_audio_error_only_when_both_fail self track msg :
  (forall e, AudioFile_read track (_samplerate self) (_audio_channels self)
               = Raise e -> is_LoadAudioError e = false) ->
  (forall e, ta_load track = Raise e -> is_LoadAudioError e = false) ->
  (forall wav sr e,
      convert_audio wav sr (_samplerate self) (_audio_channels self)
        = Raise e -> is_LoadAudioError e = false) ->
  load' self track = Raise (LoadAudioError msg) ->
  exists e text arg0 rest,
    AudioFile_read track (_samplerate self) (_audio_channels self) = Raise e /\
    ffmpeg_failure_text e = Some text /\
    ta_load track = Raise (RuntimeError (arg0 :: rest)) /\
    msg =
      "When trying to load using ffmpeg, got the following error: "
      +:+ text +:+ newline +:+
      "When trying to load using torchaudio, got the following error: "
      +:+ arg0.
Proof.
  intros Hff Hta Hconv Hload.
  destruct (AudioFile_read track (_samplerate self) (_audio_channels self))
    as [wav|e] eqn:Hread.
  - unfold _load_audio, load_ffmpeg in Hload. rewrite Hread in Hload.
    discriminate Hload.
  - destruct (ffmpeg_failure_text e) as [text|] eqn:Htext.
    + rewrite (load_after_ffmpeg_failure self track e text Htext Hread)
        in Hload.
      unfold load_torchaudio in Hload. simpl in Hload.
      destruct (ta_load track) as [[wav sr]|e'] eqn:Hload'.
      * destruct (convert_audio wav sr _ _) as [w|e''] eqn:Hc;
          simpl in Hload; [discriminate Hload|].
        injection Hload as ->. by specialize (Hconv _ _ _ Hc).
      * specialize (Hta _ eq_refl).
        destruct e'; simpl in Hload; try (injection Hload as ?; discriminate);
          try discriminate Hta.
        destruct args as [|arg0 rest]; simpl in Hload; [discriminate Hload|].
        injection Hload as <-. by exists e, text, arg0, rest.
    + rewrite (load_audio_unhandled_failure _ _ _ self track e Htext Hread)
        in Hload.
      injection Hload as ->. by specialize (Hff _ eq_refl).
Qed.

End LoadAudioMore.

(** Witness for X8: FFmpeg may not read the file. *)
Lemma load_audio_ffmpeg_error_passes_witness :
  (_load_audio ffmpeg_denied (torchaudio_returns ramp32) convert_nothing
     stub_separator "song.wav" : res (Tensor2 spec_float)) =
  Raise (OtherException "PermissionError").
Proof.
  apply load_audio_ffmpeg_error_passes; reflexivity.
Defined.

(** Witness for X9: FFmpeg is not installed and torchaudio runs out of
    memory. *)
Lemma load_audio_torchaudio_error_passes_witness :
  (_load_audio ffmpeg_missing torchaudio_out_of_memory convert_nothing
     stub_separator "song.wav" : res (Tensor2 spec_float)) =
  Raise (OtherException "MemoryError").
Proof.
  apply (proj1 (load_audio_torchaudio_error_passes ffmpeg_missing
                  torchaudio_out_of_memory convert_nothing stub_separator
                  "song.wav"
                  (FileNotFoundError "No such file or directory: 'ffprobe'")
                  "FFmpeg is not installed." eq_refl eq_refl));
    reflexivity.
Defined.

(** Witness for X10: FFmpeg is not installed and torchaudio does not
    recognise the format. *)
Lemma load_audio_error_only_when_both_fail_witness :
  exists e text arg0 rest,
    @ffmpeg_missing spec_float "song.xyz" (_samplerate stub_separator)
      (_audio_channels stub_separator) = Raise e /\
    ffmpeg_failure_text e = Some text /\
    @torchaudio_unknown_format spec_float "song.xyz"
      = Raise (RuntimeError (arg0 :: rest)) /\
    "When trying to load using ffmpeg, got the following error: "
    +:+ "FFmpeg is not installed." +:+ newline +:+
    "When trying to load using torchaudio, got the following error: "
    +:+ "Format not recognised." =
    "When trying to load using ffmpeg, got the following error: "
    +:+ text +:+ newline +:+
    "When trying to load using torchaudio, got the following error: "
    +:+ arg0.
Proof.
  apply (load_audio_error_only_when_both_fail ffmpeg_missing
           torchaudio_unknown_format convert_nothing stub_separator
           "song.xyz").
  - intros e [= <-]. reflexivity.
  - intros e [= <-]. reflexivity.
  - intros wav sr e H. discriminate H.
  - reflexivity.
Defined.

(** ** Further properties of the separation *)

Section Dict.
Context {V : Type}.
Implicit Types (d acc pairs : odict V) (k : string) (v : V).

Lemma keys_odict_set_old d k v : k ∈ keys d -> keys (odict_set d k v) = keys d.
Proof.
  unfold keys. induction d as [|[k' v'] d IH]; simpl; intros Hk.
  - by apply elem_of_nil in Hk.
  - destruct (String.eqb_spec k k') as [->|Hne]; [done|]. simpl.
    f_equal. apply IH. apply elem_of_cons in Hk as [?|?]; [done|done].
Qed.

Lemma keys_odict_set_new d k v :
  k ∉ keys d -> keys (odict_set d k v) = (keys d ++ [k])%list.
Proof.
  intros Hk. rewrite odict_set_fresh by done. unfold keys. by rewrite map_app.
Qed.

Lemma odict_set_keys_NoDup d k v :
  NoDup (keys d) -> NoDup (keys (odict_set d k v)).
Proof.
  intros Hnd. destruct (decide (k ∈ keys d)) as [Hin|Hout].
  - by rewrite keys_odict_set_old.
  - rewrite keys_odict_set_new by done.
    apply NoDup_app. split; [done|]. split.
    + intros x Hx Hx'. apply list_elem_of_singleton in Hx'. by subst.
    + apply NoDup_singleton.
Qed.

Lemma odict_set_keys_elem d k v x :
  x ∈ keys (odict_set d k v) -> x ∈ keys d \/ x = k.
Proof.
  destruct (decide (k ∈ keys d)) as [Hin|Hout].
  - rewrite keys_odict_set_old by done. by left.
  - rewrite keys_odict_set_new by done.
    rewrite elem_of_app, list_elem_of_singleton. tauto.
Qed.

Lemma fold_set_keys pairs acc :
  NoDup (keys acc) ->
  let d := fold_left (fun d kv => odict_set d (fst kv) (snd kv)) pairs acc in
  NoDup (keys d) /\
  forall x, x ∈ keys d -> x ∈ keys acc \/ x ∈ keys pairs.
Proof.
  revert acc. induction pairs as [|[k v] pairs IH]; intros acc Hnd; simpl.
  - split; [done|]. by left.
  - destruct (IH (odict_set acc k v) (odict_set_keys_NoDup acc k v Hnd))
      as [Hnd' Hsub].
    split; [done|]. intros x Hx.
    destruct (Hsub x Hx) as [Hacc|Hp].
    + apply odict_set_keys_elem in Hacc as [?|Heq]; [by left|].
      subst x. right. unfold keys. simpl. apply elem_of_cons. by left.
    + right. unfold keys. simpl. apply elem_of_cons. by right.
Qed.

(** The keys of a dict built from pairs are distinct and are keys of
    the pairs. *)
Lemma dict_of_pairs_keys pairs :
  NoDup (keys (dict_of_pairs pairs)) /\
  forall x, x ∈ keys (dict_of_pairs pairs) -> x ∈ keys pairs.
Proof.
  destruct (fold_set_keys pairs [] (NoDup_nil_2)) as [Hnd Hsub].
  split; [exact Hnd|]. intros x Hx.
  destruct (Hsub x Hx) as [Hnil|?]; [|done]. by apply elem_of_nil in Hnil.
Qed.

Lemma odict_set_values d k v x :
  x ∈ values (odict_set d k v) -> x ∈ values d \/ x = v.
Proof.
  unfold values. induction d as [|[k' v'] d IH]; simpl.
  - intros Hx. apply list_elem_of_singleton in Hx. by right.
  - destruct (String.eqb k k'); simpl; rewrite !elem_of_cons.
    + intros [->|Hx]; [by right|]. left. by right.
    + intros [->|Hx]; [left; by left|].
      destruct (IH Hx) as [?|?]; [left; by right|by right].
Qed.

Lemma fold_set_values pairs acc x :
  x ∈ values (fold_left (fun d kv => odict_set d (fst kv) (snd kv)) pairs acc) ->
  x ∈ values acc \/ x ∈ values pairs.
Proof.
  revert acc. induction pairs as [|[k v] pairs IH]; intros acc; simpl.
  - by left.
  - intros Hx. destruct (IH _ Hx) as [Hacc|Hp].
    + apply odict_set_values in Hacc as [?|Heq]; [by left|].
      subst x. right. unfold values. simpl. apply elem_of_cons. by left.
    + right. unfold values. simpl. apply elem_of_cons. by right.
Qed.

(** A value of a dict built from pairs is a value of the pairs. *)
Lemma dict_of_pairs_values pairs x :
  x ∈ values (dict_of_pairs pairs) -> x ∈ values pairs.
Proof.
  intros Hx. destruct (fold_set_values pairs [] x Hx) as [Hnil|?]; [|done].
  by apply elem_of_nil in Hnil.
Qed.

Lemma keys_zip_take {B} (ks : list string) (vs : list B) :
  keys (zip ks vs) = take (length vs) ks.
Proof.
  unfold keys. revert vs.
  induction ks as [|k ks IH]; intros [|v vs]; simpl; try done.
  by rewrite IH.
Qed.

Lemma values_zip_take {B} (ks : list string) (vs : list B) :
  values (zip ks vs) = take (length ks) vs.
Proof.
  unfold values. revert vs.
  induction ks as [|k ks IH]; intros [|v vs]; simpl; try done.
  by rewrite IH.
Qed.

End Dict.

Section SeparateTensorMore.
Context {F : Type} {SF : Scalar F}.
Implicit Types (self : Separator) (wav : Tensor2 F) (call : ApplyModelCall F).
Implicit Types (apply_model : ApplyModelCall F -> res (Tensor4 F)).

(** X11: when the strategy raises, [separate_tensor] raises the same
    error; when it returns an empty batch, [separate_tensor] raises
    [IndexError]. *)
Theorem separate_tensor_strategy_errors apply_model self wav call :
  let m := mean (mean_dim0 wav) in
  let s := std (mean_dim0 wav) in
  let normalized := map (map (fun x => fdiv (fsub x m) s)) wav in
  apply_model_call self normalized = Ok call ->
  (forall e, apply_model call = Raise e ->
             separate_tensor apply_model self wav = Raise e) /\
  (apply_model call = Ok [] ->
   separate_tensor apply_model self wav = Raise IndexError).
Proof.
  intros m s normalized Hcall.
  rewrite separate_tensor_unfold. cbv zeta. fold m s normalized.
  rewrite Hcall. simpl. split.
  - intros e He. by rewrite He.
  - intros He. by rewrite He.
Qed.

(** X12: with distinct source names, whatever number of tensors the
    strategy returns in its first batch entry, the mapping pairs names
    and tensors in order up to the shorter of the two: its keys are the
    first source names, as many as there are tensors, and its values the
    first tensors, as many as there are names. *)
Theorem separate_tensor_mapping_truncates apply_model self wav bag out0 rest :
  let m := mean (mean_dim0 wav) in
  let s := std (mean_dim0 wav) in
  let normalized := map (map (fun x => fdiv (fsub x m) s)) wav in
  let stems := map (map (map (fun y => fadd (fmul y s) m))) out0 in
  configured self -> context_bag self = Some bag ->
  NoDup (sources (_model self)) ->
  (forall call, apply_model_call self normalized = Ok call ->
                apply_model call = Ok (out0 :: rest)) ->
  exists first d,
    separate_tensor apply_model self wav = Ok (first, d) /\
    keys d = take (length out0) (sources (_model self)) /\
    values d = take (length (sources (_model self))) stems.
Proof.
  intros m s normalized stems Hc Hbag Hnd Hout.
  destruct (apply_model_call_ready self bag normalized Hc Hbag)
    as (call & Hcall & _).
  pose proof (separate_tensor_unfold apply_model self wav) as Hsep.
  cbv zeta in Hsep. fold m s normalized in Hsep.
  rewrite Hcall in Hsep. simpl in Hsep.
  rewrite (Hout call Hcall) in Hsep. simpl in Hsep. fold stems in Hsep.
  assert (Hk : keys (zip (sources (_model self)) stems)
               = take (length out0) (sources (_model self))).
  { rewrite keys_zip_take. unfold stems. by rewrite length_map. }
  assert (Hnd' : NoDup (keys (zip (sources (_model self)) stems))).
  { rewrite keys_zip_take. exact (sublist_NoDup _ _ Hnd (sublist_take _ _)). }
  rewrite (dict_of_pairs_nodup _ Hnd') in Hsep.
  eexists _, _. split; [exact Hsep|].
  split; [exact Hk|apply values_zip_take].
Qed.

(** X13: whatever the model and the strategy, the keys of a returned
    mapping are distinct, each of them is a source name of the model,
    and there are no more of them than tensors in the first batch
    entry would allow: no more than source names. *)
Theorem separate_tensor_mapping_keys apply_model self wav first d :
  separate_tensor apply_model self wav = Ok (first, d) ->
  NoDup (keys d) /\
  (forall k, k ∈ keys d -> k ∈ sources (_model self)) /\
  length d <= length (sources (_model self)).
Proof.
  rewrite separate_tensor_unfold. cbv zeta.
  destruct (apply_model_call self _) as [call|e]; simpl; [|done].
  destruct (apply_model call) as [[|out0 rest]|e]; simpl; try done.
  intros [= _ <-].
  match goal with
  | |- context [dict_of_pairs ?pairs] =>
      destruct (dict_of_pairs_keys pairs) as [Hnd Hsub]
  end.
  split; [exact Hnd|]. split.
  - intros k Hk. apply Hsub in Hk. rewrite keys_zip_take in Hk.
    by apply (subseteq_take _ _ _ Hk).
  - match goal with
    | |- length (dict_of_pairs ?pairs) <= _ =>
        assert (Hincl : forall k, k ∈ keys (dict_of_pairs pairs) ->
                                  k ∈ sources (_model self))
    end.
    { intros k Hk. apply Hsub in Hk. rewrite keys_zip_take in Hk.
      by apply (subseteq_take _ _ _ Hk). }
    apply (NoDup_submseteq _ _ Hnd), submseteq_length in Hincl.
    unfold keys in Hincl. by rewrite length_map in Hincl.
Qed.

End SeparateTensorMore.

Section SeparateAudioFile.
Context {F : Type} {SF : Scalar F}.
Variable apply_model : ApplyModelCall F -> res (Tensor4 F).
Variable AudioFile_read : string -> Z -> Z -> res (Tensor2 F).
Variable ta_load : string -> res (Tensor2 F * Z).
Variable convert_audio : Tensor2 F -> Z -> Z -> Z -> res (Tensor2 F).

#[local] Abbreviation separate_file :=
  (separate_audio_file apply_model AudioFile_read ta_load convert_audio).

(** X14: [separate_audio_file] separates the waveform FFmpeg returns,
    as it is; when FFmpeg fails in a handled way and torchaudio
    returns, it separates the converted waveform of torchaudio; when
    loading raises, it raises the same error and the result does not
    depend on the strategy. *)
Theorem separate_audio_file_outcomes self file :
  (forall wav,
      AudioFile_read file (_samplerate self) (_audio_channels self) = Ok wav ->
      separate_file self file = separate_tensor apply_model self wav) /\
  (forall e text wav sr,
      ffmpeg_failure_text e = Some text ->
      AudioFile_read file (_samplerate self) (_audio_channels self) = Raise e ->
      ta_load file = Ok (wav, sr) ->
      separate_file self file =
      (converted <- convert_audio wav sr (_samplerate self)
                      (_audio_channels self) ;;
       separate_tensor apply_model self converted)) /\
  (forall e,
      _load_audio AudioFile_read ta_load convert_audio self file = Raise e ->
      forall other_strategy,
        separate_audio_file other_strategy AudioFile_read ta_load
          convert_audio self file = Raise e).
Proof.
  repeat split.
  - intros wav Hread. unfold separate_audio_file, _load_audio, load_ffmpeg.
    by rewrite Hread.
  - intros e text wav sr Htext Hread Hta. unfold separate_audio_file.
    rewrite (load_after_ffmpeg_failure _ _ _ self file e text Htext Hread).
    unfold load_torchaudio. simpl. rewrite Hta.
    by destruct (convert_audio wav sr _ _).
  - intros e Hload other. unfold separate_audio_file. by rewrite Hload.
Qed.

End SeparateAudioFile.

(** The mix the default instance passes on for the ramp. *)
Lemma stub_call_exists :
  exists call : ApplyModelCall spec_float,
    apply_model_call stub_separator
      (map (map (fun x => fdiv (fsub x (mean (mean_dim0 ramp32)))
                            (std (mean_dim0 ramp32)))) ramp32) = Ok call.
Proof.
  destruct (apply_model_call_ready stub_separator ∅
              (map (map (fun x => fdiv (fsub x (mean (mean_dim0 ramp32)))
                                    (std (mean_dim0 ramp32)))) ramp32)
              stub_separator_configured stub_separator_bag)
    as (call & Hcall & _).
  by exists call.
Qed.

(** Witness for X11: a strategy that fails and one that returns an
    empty batch. *)
Lemma separate_tensor_strategy_errors_witness :
  separate_tensor failing_strategy stub_separator ramp32 =
  Raise (ValueError "strategy failed") /\
  separate_tensor empty_strategy stub_separator ramp32 = Raise IndexError.
Proof.
  destruct stub_call_exists as [call Hcall]. split.
  - apply (proj1 (separate_tensor_strategy_errors failing_strategy
                    stub_separator ramp32 call Hcall)).
    reflexivity.
  - apply (proj2 (separate_tensor_strategy_errors empty_strategy
                    stub_separator ramp32 call Hcall)).
    reflexivity.
Defined.

(** Witness for X12: the model declares four sources, the strategy
    returns two tensors. *)
Lemma separate_tensor_mapping_truncates_witness :
  NoDup (sources (_model stub_separator)) /\
  exists first d,
    separate_tensor two_source_strategy stub_separator ramp32
      = Ok (first, d) /\
    keys d = ["drums"; "bass"] /\
    values d = [ramp32; ramp32].
Proof.
  assert (Hnd : NoDup (sources (_model stub_separator))).
  { rewrite stub_separator_model. apply (bool_decide_unpack _).
    vm_compute. exact I. }
  split; [exact Hnd|].
  destruct (separate_tensor_mapping_truncates two_source_strategy
              stub_separator ramp32 ∅
              [[[Binary32.of_Z (-1); Binary32.of_Z 0; Binary32.of_Z 1]];
               [[Binary32.of_Z (-1); Binary32.of_Z 0; Binary32.of_Z 1]]] [])
    as (first & d & Hsep & Hkeys & Hvalues).
  - exact stub_separator_configured.
  - exact stub_separator_bag.
  - exact Hnd.
  - intros call Hcall. vm_compute in Hcall. injection Hcall as <-.
    vm_compute. reflexivity.
  - exists first, d. split; [exact Hsep|].
    rewrite Hkeys, Hvalues, stub_separator_model.
    split; vm_compute; reflexivity.
Defined.

(** Witness for X13: the identity strategy on the default instance. *)
Lemma separate_tensor_mapping_keys_witness :
  NoDup (keys [("drums", ramp32); ("bass", ramp32);
               ("other", ramp32); ("vocals", ramp32)]) /\
  length [("drums", ramp32); ("bass", ramp32);
          ("other", ramp32); ("vocals", ramp32)]
    <= length (sources (_model stub_separator)).
Proof.
  destruct (separate_tensor_mapping_keys identity_strategy stub_separator
              ramp32
              [[Binary32.of_Z (-1); Binary32.of_Z 0; Binary32.of_Z 1]]
              [("drums", ramp32); ("bass", ramp32);
               ("other", ramp32); ("vocals", ramp32)])
    as (Hnd & _ & Hlen).
  - vm_compute. reflexivity.
  - split; [exact Hnd|exact Hlen].
Defined.

(** Witness for X14: a file neither backend can decode, and a file
    torchaudio decodes. *)
Lemma separate_audio_file_outcomes_witness :
  separate_audio_file identity_strategy ffmpeg_missing
    torchaudio_unknown_format convert_nothing stub_separator "song.xyz" =
  Raise (LoadAudioError
           ("When trying to load using ffmpeg, got the following error: "
            +:+ "FFmpeg is not installed." +:+ newline +:+
            "When trying to load using torchaudio, got the following error: "
            +:+ "Format not recognised.")) /\
  separate_audio_file identity_strategy ffmpeg_missing
    (torchaudio_returns ramp32) convert_nothing stub_separator "song.wav" =
  separate_tensor identity_strategy stub_separator ramp32.
Proof.
  split.
  - apply (proj2 (proj2 (separate_audio_file_outcomes failing_strategy
                           ffmpeg_missing torchaudio_unknown_format
                           convert_nothing stub_separator "song.xyz"))).
    reflexivity.
  - rewrite (proj1 (proj2 (separate_audio_file_outcomes identity_strategy
                             ffmpeg_missing (torchaudio_returns ramp32)
                             convert_nothing stub_separator "song.wav"))
               (FileNotFoundError "No such file or directory: 'ffprobe'")
               "FFmpeg is not installed." ramp32 48000%Z
               eq_refl eq_refl eq_refl).
    unfold convert_nothing. apply bind_Ok.
Defined.

(** ** The statistics in exact arithmetic *)

Section ExactStatistics.
Import Exact.
Implicit Types (l r : list R) (W : list (list R)) (t : Tensor1 xreal).

Lemma xdiv_finite (x y : R) :
  y <> 0%R -> xdiv (Some x) (Some y) = Some (x / y)%R.
Proof. intros H. simpl. by destruct (Req_dec_T y 0). Qed.

Lemma xsqrt_finite (x : R) : (0 <= x)%R -> xsqrt (Some x) = Some (sqrt x).
Proof. intros H. simpl. destruct (Rlt_dec x 0); [lra|done]. Qed.

Lemma xdiv_None_r (a : xreal) : xdiv a None = None.
Proof. by destruct a. Qed.

Lemma fold_sum_finite l (a : R) :
  fold_left fadd (map Some l) (Some a) = Some (fold_left Rplus l a).
Proof. revert a. induction l as [|x l IH]; intros a; simpl; [done|apply IH]. Qed.

Lemma sum_finite l : sum (map Some l) = Some (Rsum l).
Proof. apply fold_sum_finite. Qed.

Lemma fold_Rplus_shift l (a : R) :
  fold_left Rplus l a = (a + fold_left Rplus l 0)%R.
Proof.
  revert a. induction l as [|x l IH]; intros a; simpl; [lra|].
  rewrite (IH (a + x)%R), (IH (0 + x)%R). lra.
Qed.

Lemma Rsum_cons x l : Rsum (x :: l) = (x + Rsum l)%R.
Proof. unfold Rsum. simpl. rewrite fold_Rplus_shift. lra. Qed.

Lemma Rsum_nil : Rsum [] = 0%R.
Proof. reflexivity. Qed.

Lemma Rsum_squares_nonneg (f : R -> R) l :
  (0 <= Rsum (map (fun x => f x * f x) l))%R.
Proof.
  induction l as [|x l IH].
  - simpl. rewrite Rsum_nil. lra.
  - cbn [map]. rewrite Rsum_cons. nra.
Qed.

Lemma INR_length_pos {A} (l : list A) : l <> [] -> INR (length l) <> 0%R.
Proof. intros H. apply not_0_INR. by destruct l. Qed.

(** Mean and deviation of a list of finite values. *)
Lemma mean_finite l :
  l <> [] -> mean (map Some l) = Some (Rmean l).
Proof.
  intros Hl. unfold mean. rewrite sum_finite, length_map.
  apply xdiv_finite. by apply INR_length_pos.
Qed.

Lemma std_finite l :
  2 <= length l -> std (map Some l) = Some (Rstd l).
Proof.
  intros Hlen. unfold std, Rstd.
  rewrite mean_finite by (intros ->; simpl in Hlen; lia).
  rewrite map_map. cbn [fmul fsub scalar lift2].
  rewrite <- (map_map (fun x => ((x - Rmean l) * (x - Rmean l))%R) Some).
  rewrite sum_finite, !length_map.
  assert (Hpos : (0 < INR (length l - 1))%R) by (apply lt_0_INR; lia).
  cbn [fdiv fsqrt fof_nat scalar].
  rewrite xdiv_finite by lra.
  apply xsqrt_finite.
  apply Rmult_le_pos; [apply Rsum_squares_nonneg|].
  left. by apply Rinv_0_lt_compat.
Qed.

(** With fewer than two values the deviation is not a number. *)
Lemma std_short t : length t <= 1 -> std t = None.
Proof.
  intros Hlen. unfold std.
  destruct t as [|x [|y t]]; simpl in Hlen; try lia; cbn [length Nat.sub];
    cbn [fof_nat scalar INR]; by rewrite xdiv_by_zero.
Qed.

Lemma column_finite2 j W :
  column j (finite2 W) = map Some (map (fun row => nth j row 0%R) W).
Proof.
  unfold column, finite2. rewrite !map_map. apply map_ext. intros row.
  apply (map_nth Some).
Qed.

(** The channel average of a waveform of finite samples with at least
    one channel. *)
Lemma mean_dim0_finite W :
  W <> [] -> mean_dim0 (finite2 W) = map Some (channel_average W).
Proof.
  intros HW. unfold mean_dim0, channel_average. rewrite map_map.
  replace (shape1 (finite2 W)) with (length (hd [] W))
    by (destruct W; simpl; [done|by rewrite length_map]).
  apply map_ext. intros j. rewrite column_finite2.
  apply mean_finite. by destruct W.
Qed.

Lemma length_mean_dim0 (t : Tensor2 xreal) : length (mean_dim0 t) = shape1 t.
Proof. unfold mean_dim0. by rewrite length_map, length_seq. Qed.

End ExactStatistics.

(** ** The statistics of the normalization *)

Section Normalization.
Context {F : Type} {SF : Scalar F}.
Implicit Types (self : Separator) (wav : Tensor2 F).
Implicit Types (apply_model : ApplyModelCall F -> res (Tensor4 F)).

(** C2: the statistics are two scalars computed once from the whole
    input: the mean and the deviation of the reference signal, which
    has one value per sample frame, the mean over all channels of the
    samples of that frame.  Every sample of every channel of the mix
    handed to the strategy is the input sample minus that mean, divided
    by that deviation; every sample of every returned source is the
    strategy's output sample times the same deviation plus the same
    mean.  Over exact scalars the mean of a frame, the mean of the
    reference signal and its deviation are the arithmetic mean and the
    unbiased standard deviation of real numbers. *)
Theorem separate_tensor_normalization apply_model self wav :
  let ref := mean_dim0 wav in
  let m := mean ref in
  let s := std ref in
  let normalized := map (map (fun x => fdiv (fsub x m) s)) wav in
  (wav <> [] ->
   ref = map (fun j => mean (map (fun row => nth j row fzero) wav))
             (seq 0 (length (hd [] wav)))) /\
  separate_tensor apply_model self wav =
  (call <- apply_model_call self normalized ;;
   out <- apply_model call ;;
   match out with
   | [] => Raise IndexError
   | out0 :: _ =>
       Ok (normalized,
           dict_of_pairs
             (zip (sources (_model self))
                  (map (map (map (fun y => fadd (fmul y s) m))) out0)))
   end) /\
  (forall call, apply_model_call self normalized = Ok call ->
                am_mix call = [normalized]) /\
  (forall (c t : nat) (row : Tensor1 F) (x : F),
      wav !! c = Some row -> row !! t = Some x ->
      normalized !! c ≫= (.!! t) = Some (fdiv (fsub x m) s)) /\
  (forall W : list (list R),
      W <> [] ->
      mean_dim0 (Exact.finite2 W) = map Some (channel_average W) /\
      (1 <= length (hd [] W) ->
       mean (mean_dim0 (Exact.finite2 W))
       = Some (Rmean (channel_average W))) /\
      (2 <= length (hd [] W) ->
       std (mean_dim0 (Exact.finite2 W))
       = Some (Rstd (channel_average W)))).
Proof.
  intros ref m s normalized.
  split.
  { intros Hwav. unfold ref, mean_dim0.
    replace (shape1 wav) with (length (hd [] wav)) by (by destruct wav).
    reflexivity. }
  split; [apply separate_tensor_unfold|]. split.
  { intros call. unfold apply_model_call.
    repeat match goal with
           | |- context [bind ?r _] => destruct r; simpl; [|done]
           end.
    by intros [= <-]. }
  split.
  { intros c t row x Hrow Hx. unfold normalized.
    unfold Tensor2, Tensor1 in *.
    rewrite lookup_map, Hrow. simpl.
    by rewrite lookup_map, Hx. }
  intros W HW.
  assert (Hlen : length (channel_average W) = length (hd [] W))
    by (unfold channel_average; by rewrite length_map, length_seq).
  rewrite (mean_dim0_finite W HW). split; [done|]. split.
  - intros Hn. apply mean_finite. intros Hnil. rewrite Hnil in Hlen.
    simpl in Hlen. lia.
  - intros Hn. apply std_finite. by rewrite Hlen.
Qed.

End Normalization.

(** Witness for C2: in binary32, two channels of three sample frames;
    over exact scalars, the ramp 0, 2, 4 on one channel. *)
Lemma separate_tensor_normalization_witness :
  mean_dim0 [[Binary32.of_Z 0; Binary32.of_Z 0; Binary32.of_Z 0];
             [Binary32.of_Z 0; Binary32.of_Z 4; Binary32.of_Z 8]] =
  [mean [Binary32.of_Z 0; Binary32.of_Z 0];
   mean [Binary32.of_Z 0; Binary32.of_Z 4];
   mean [Binary32.of_Z 0; Binary32.of_Z 8]] /\
  std (mean_dim0 (Exact.finite2 [[0; 2; 4]]%R)) =
  Some (Rstd (channel_average [[0; 2; 4]]%R)).
Proof.
  destruct (separate_tensor_normalization identity_strategy stub_separator
              [[Binary32.of_Z 0; Binary32.of_Z 0; Binary32.of_Z 0];
               [Binary32.of_Z 0; Binary32.of_Z 4; Binary32.of_Z 8]])
    as (Href & _ & _ & _ & Hexact).
  split.
  - rewrite Href by discriminate. reflexivity.
  - apply (Hexact [[0; 2; 4]]%R); [discriminate|]. simpl. lia.
Defined.

(** ** Short inputs *)

(** X16: in exact arithmetic, on a waveform with fewer than two sample
    frames the deviation is not a number, and whatever the strategy
    returns, no sample of the returned wave or of any returned source
    is a finite number. *)
Theorem separate_tensor_short_input
    (apply_model : ApplyModelCall Exact.xreal -> res (Tensor4 Exact.xreal))
    (self : Separator) (wav : Tensor2 Exact.xreal)
    (first : Tensor2 Exact.xreal) (d : odict (Tensor2 Exact.xreal)) :
  shape1 wav <= 1 ->
  separate_tensor apply_model self wav = Ok (first, d) ->
  std (mean_dim0 wav) = None /\
  nowhere_finite first /\
  Forall nowhere_finite (values d).
Proof.
  intros Hshort Hsep.
  assert (Hstd : std (mean_dim0 wav) = None)
    by (apply std_short; by rewrite length_mean_dim0).
  split; [exact Hstd|].
  rewrite separate_tensor_unfold in Hsep. cbv zeta in Hsep.
  rewrite Hstd in Hsep.
  destruct (apply_model_call self _) as [call|e]; simpl in Hsep; [|done].
  destruct (apply_model call) as [[|out0 rest]|e]; simpl in Hsep; try done.
  injection Hsep as <- <-. split.
  - unfold nowhere_finite. rewrite Forall_forall. intros row Hrow.
    apply list_elem_of_In, in_map_iff in Hrow as (row0 & <- & _).
    rewrite Forall_forall. intros x Hx.
    apply list_elem_of_In, in_map_iff in Hx as (x0 & <- & _).
    apply xdiv_None_r.
  - rewrite Forall_forall. intros v Hv.
    apply dict_of_pairs_values in Hv.
    rewrite values_zip_take in Hv. apply subseteq_take in Hv.
    apply list_elem_of_In, in_map_iff in Hv as (v0 & <- & _).
    unfold nowhere_finite. rewrite Forall_forall. intros row Hrow.
    apply list_elem_of_In, in_map_iff in Hrow as (row0 & <- & _).
    rewrite Forall_forall. intros x Hx.
    apply list_elem_of_In, in_map_iff in Hx as (x0 & <- & _).
    simpl. by rewrite lift2_None_r.
Qed.

(** Witness for X16: one channel with the single sample 5. *)
Lemma separate_tensor_short_input_witness :
  separate_tensor identity_strategy stub_separator [[Some 5%R]] =
  Ok ([[None]], [("drums", [[None]]); ("bass", [[None]]);
                 ("other", [[None]]); ("vocals", [[None]])]) /\
  nowhere_finite [[None]].
Proof.
  assert (H : separate_tensor identity_strategy stub_separator [[Some 5%R]] =
              Ok ([[None]], [("drums", [[None]]); ("bass", [[None]]);
                             ("other", [[None]]); ("vocals", [[None]])])).
  { rewrite separate_tensor_unfold. cbv zeta.
    rewrite (std_short (mean_dim0 [[Some 5%R]])) by (simpl; lia).
    match goal with
    | |- context [apply_model_call _ ?w] =>
        destruct (apply_model_call_ready stub_separator ∅ w
                    stub_separator_configured stub_separator_bag)
          as (call & Hcall & Hmodel & Hmix & _)
    end.
    rewrite Hcall, bind_Ok. unfold identity_strategy.
    rewrite Hmix, Hmodel, !stub_separator_model, bind_Ok.
    cbn -[Exact.xdiv]. rewrite !xdiv_None_r. reflexivity. }
  split; [exact H|].
  exact (proj1 (proj2 (separate_tensor_short_input identity_strategy
                         stub_separator [[Some 5%R]] _ _
                         (le_n 1) H))).
Defined.

(** ** What a result of the loader and of the separation stands for *)

Section Origins.
Context {F : Type} {SF : Scalar F}.
Variable apply_model : ApplyModelCall F -> res (Tensor4 F).
Variable AudioFile_read : string -> Z -> Z -> res (Tensor2 F).
Variable ta_load : string -> res (Tensor2 F * Z).
Variable convert_audio : Tensor2 F -> Z -> Z -> Z -> res (Tensor2 F).

(** X18: a waveform returned by [_load_audio] is the one FFmpeg
    returned, or FFmpeg failed in a handled way and the waveform is the
    one torchaudio returned, converted to the sample rate and the
    channel count of the instance. *)
Theorem load_audio_success_origin (self : Separator) (track : string)
    (w : Tensor2 F) :
  _load_audio AudioFile_read ta_load convert_audio self track = Ok w ->
  AudioFile_read track (_samplerate self) (_audio_channels self) = Ok w \/
  exists e text wav sr,
    AudioFile_read track (_samplerate self) (_audio_channels self) = Raise e /\
    ffmpeg_failure_text e = Some text /\
    ta_load track = Ok (wav, sr) /\
    convert_audio wav sr (_samplerate self) (_audio_channels self) = Ok w.
Proof.
  intros Hload.
  destruct (AudioFile_read track (_samplerate self) (_audio_channels self))
    as [wav|e] eqn:Hread.
  - left. unfold _load_audio, load_ffmpeg in Hload. rewrite Hread in Hload.
    simpl in Hload. by injection Hload as ->.
  - right. destruct (ffmpeg_failure_text e) as [text|] eqn:Htext.
    + rewrite (load_after_ffmpeg_failure _ _ _ self track e text Htext Hread)
        in Hload.
      unfold load_torchaudio in Hload. simpl in Hload.
      destruct (ta_load track) as [[wav sr]|e'] eqn:Hta.
      * destruct (convert_audio wav sr _ _) as [w'|e''] eqn:Hc;
          simpl in Hload; [|discriminate Hload].
        injection Hload as ->. by exists e, text, wav, sr.
      * destruct e'; simpl in Hload; try discriminate Hload.
        destruct args; simpl in Hload; discriminate Hload.
    + rewrite (load_audio_unhandled_failure _ _ _ self track e Htext Hread)
        in Hload.
      discriminate Hload.
Qed.

(** X19: on an instance that is ready, [separate_tensor] raises only
    what the strategy raised on the call built for the normalized
    waveform, or [IndexError] when the strategy returned an empty
    batch. *)
Theorem separate_tensor_errors_from_strategy (self : Separator)
    (wav : Tensor2 F) (e : exn) :
  let m := mean (mean_dim0 wav) in
  let s := std (mean_dim0 wav) in
  let normalized := map (map (fun x => fdiv (fsub x m) s)) wav in
  ready self ->
  separate_tensor apply_model self wav = Raise e ->
  exists call,
    apply_model_call self normalized = Ok call /\
    (apply_model call = Raise e \/
     (apply_model call = Ok [] /\ e = IndexError)).
Proof.
  intros m s normalized [Hc [bag Hbag]] Hsep.
  destruct (apply_model_call_ready self bag normalized Hc Hbag)
    as (call & Hcall & _).
  exists call. split; [exact Hcall|].
  rewrite separate_tensor_unfold in Hsep. cbv zeta in Hsep.
  fold m s normalized in Hsep. rewrite Hcall in Hsep. simpl in Hsep.
  destruct (apply_model call) as [[|out0 rest]|e']; simpl in Hsep.
  - right. by injection Hsep as <-.
  - discriminate Hsep.
  - left. by injection Hsep as ->.
Qed.

End Origins.

(** Witness for X18: FFmpeg is not installed and torchaudio decodes the
    file. *)
Lemma load_audio_success_origin_witness :
  @ffmpeg_missing spec_float "song.wav" (_samplerate stub_separator)
    (_audio_channels stub_separator) = Ok ramp32 \/
  exists e text wav sr,
    @ffmpeg_missing spec_float "song.wav" (_samplerate stub_separator)
      (_audio_channels stub_separator) = Raise e /\
    ffmpeg_failure_text e = Some text /\
    torchaudio_returns ramp32 "song.wav" = Ok (wav, sr) /\
    convert_nothing wav sr (_samplerate stub_separator)
      (_audio_channels stub_separator) = Ok ramp32.
Proof.
  apply (load_audio_success_origin ffmpeg_missing (torchaudio_returns ramp32)
           convert_nothing stub_separator "song.wav" ramp32).
  reflexivity.
Defined.

(** Witness for X19: a strategy that fails. *)
Lemma separate_tensor_errors_from_strategy_witness :
  exists call : ApplyModelCall spec_float,
    failing_strategy call = Raise (ValueError "strategy failed") \/
    (failing_strategy call = Ok [] /\ ValueError "strategy failed" = IndexError).
Proof.
  destruct (separate_tensor_errors_from_strategy failing_strategy
              stub_separator ramp32 (ValueError "strategy failed")
              stub_separator_ready)
    as (call & _ & H).
  - vm_compute. reflexivity.
  - exists call. exact H.
Defined.

(** ** Further properties of [save_audio] *)

Section SaveAudioMore.
Context {F : Type}.
Implicit Types (prevent_clip : Tensor2 F -> ClipMode -> res (Tensor2 F)).
Implicit Types (wav : Tensor2 F) (path : string) (clip : ClipMode).

(** X20: whenever [save_audio] reaches an encoder, the waveform it
    hands over is the one [prevent_clip] returned for the requested
    mode, the destination is [str(Path(path))], the sample rate is the
    one given, and the lowered suffix of the path is one of [.mp3],
    [.wav], [.flac]. *)
Theorem save_audio_success prevent_clip wav path samplerate bitrate clip bits
    as_float (call : EncoderCall F) :
  save_audio prevent_clip wav path samplerate bitrate clip bits as_float
    = Ok call ->
  prevent_clip wav clip = Ok (encoded_wav call) /\
  encoded_path call = Pathlib.str (Pathlib.of_string path) /\
  encoded_samplerate call = samplerate /\
  lower (Pathlib.suffix (Pathlib.of_string path)) ∈ [".mp3"; ".wav"; ".flac"].
Proof.
  rewrite save_audio_by_suffix. cbv zeta.
  destruct (prevent_clip wav clip) as [clipped|e]; simpl; [|discriminate].
  destruct (String.eqb_spec (lower (Pathlib.suffix (Pathlib.of_string path)))
              ".mp3") as [->|_].
  { intros [= <-]. repeat split. apply list_elem_of_In. simpl. tauto. }
  destruct (String.eqb_spec (lower (Pathlib.suffix (Pathlib.of_string path)))
              ".wav") as [->|_].
  { intros [= <-]. repeat split. apply list_elem_of_In. simpl. tauto. }
  destruct (String.eqb_spec (lower (Pathlib.suffix (Pathlib.of_string path)))
              ".flac") as [->|_].
  { intros [= <-]. repeat split. apply list_elem_of_In. simpl. tauto. }
  discriminate.
Qed.


(** X22: for an MP3 destination the bit depth and the float flag are
    not used; for any other destination the bit rate is not used. *)
Theorem save_audio_unused_arguments prevent_clip wav path samplerate bitrate
    clip bits as_float :
  let sfx := lower (Pathlib.suffix (Pathlib.of_string path)) in
  (sfx = ".mp3" ->
   forall bits' as_float',
     save_audio prevent_clip wav path samplerate bitrate clip bits' as_float' =
     save_audio prevent_clip wav path samplerate bitrate clip bits as_float) /\
  (sfx <> ".mp3" ->
   forall bitrate',
     save_audio prevent_clip wav path samplerate bitrate' clip bits as_float =
     save_audio prevent_clip wav path samplerate bitrate clip bits as_float).
Proof.
  intros sfx. split.
  - intros Hs bits' as_float'. rewrite !save_audio_by_suffix. cbv zeta.
    fold sfx. by rewrite Hs.
  - intros Hs bitrate'. rewrite !save_audio_by_suffix. cbv zeta.
    fold sfx. apply String.eqb_neq in Hs. by rewrite Hs.
Qed.

End SaveAudioMore.

(** Witness for X20: a 24-bit FLAC file. *)
Lemma save_audio_success_witness :
  clip_nothing ramp32 Rescale = Ok ramp32 /\
  encoded_path (ta_save "take/one.flac" ramp32 44100 None 24)
    = "take/one.flac".
Proof.
  destruct (save_audio_success clip_nothing ramp32 "take//one.flac" 44100 320
              Rescale 24 false (ta_save "take/one.flac" ramp32 44100 None 24))
    as (Hwav & Hpath & _).
  - vm_compute. reflexivity.
  - split; [exact Hwav|exact Hpath].
Defined.


(** Witness for X22: [take.mp3] at any bit depth, [take.wav] at any bit
    rate. *)
Lemma save_audio_unused_arguments_witness :
  save_audio clip_nothing ramp32 "take.mp3" 44100 320 Rescale 24 true =
  save_audio clip_nothing ramp32 "take.mp3" 44100 320 Rescale 16 false /\
  save_audio clip_nothing ramp32 "take.wav" 44100 128 Rescale 16 false =
  save_audio clip_nothing ramp32 "take.wav" 44100 320 Rescale 16 false.
Proof.
  split.
  - apply (proj1 (save_audio_unused_arguments clip_nothing ramp32 "take.mp3"
                    44100 320 Rescale 16 false)).
    reflexivity.
  - apply (proj2 (save_audio_unused_arguments clip_nothing ramp32 "take.wav"
                    44100 320 Rescale 16 false)).
    vm_compute. discriminate.
Defined.

(** ** The script *)

Section TrackNames.
Import Pathlib.

Lemma substring_all s : substring 0 (String.length s) s = s.
Proof. induction s as [|a s IH]; simpl; congruence. Qed.

(** A string splits at the last occurrence of a character into the text
    before it, the character, and a text without the character. *)
Lemma rfind_split c s i :
  rfind c s = Some i ->
  substring 0 i s +:+ String c (substring (S i) (String.length s - S i) s)
    = s /\
  substring i (String.length s - i) s
    = String c (substring (S i) (String.length s - S i) s) /\
  rfind c (substring (S i) (String.length s - S i) s) = None.
Proof.
  revert i. induction s as [|a s IH]; intros i; simpl; [done|].
  destruct (rfind c s) as [j|] eqn:Hr.
  - intros [= <-]. destruct (IH j eq_refl) as (H1 & H2 & H3). simpl.
    split; [|by split].
    change (String a (substring 0 j s +:+
                      String c (substring (S j) (String.length s - S j) s))
            = String a s).
    by rewrite H1.
  - destruct (Ascii.eqb_spec a c) as [->|]; [|done]. intros [= <-]. simpl.
    rewrite Nat.sub_0_r, substring_all. by rewrite Hr.
Qed.

(** X23: the [track] and the [trackext] of the file name template: for
    a file name without a dot both are the file name; for a file name
    with a dot, the two joined by a dot give the file name back and the
    [trackext] has no dot. *)
Theorem main_track_trackext (file : string) :
  let name := name (of_string file) in
  (rfind "." name = None ->
   main_track file = name /\ main_trackext file = name) /\
  (rfind "." name <> None ->
   main_track file +:+ "." +:+ main_trackext file = name /\
   rfind "." (main_trackext file) = None).
Proof.
  intros name. unfold main_track, main_trackext, rsplit1. fold name.
  destruct (rfind "." name) as [i|] eqn:Hr; split; try done.
  intros _. simpl. destruct (rfind_split "." name i Hr) as (H1 & _ & H3).
  by split.
Qed.

(** X24: when the file path has a suffix, the suffix is a dot and the
    [trackext]. *)
Theorem main_trackext_suffix (file : string) :
  suffix (of_string file) <> EmptyString ->
  suffix (of_string file) = "." +:+ main_trackext file.
Proof.
  unfold suffix, main_trackext, rsplit1.
  destruct (rfind "." (name (of_string file))) as [i|] eqn:Hr; [|done].
  destruct (_ && _); [|done]. intros _. simpl.
  by destruct (rfind_split "." _ i Hr) as (_ & H2 & _).
Qed.

End TrackNames.

(** Witness for X23: a name without a dot and a name with two. *)
Lemma main_track_trackext_witness :
  (main_track "music/README" = "README" /\
   main_trackext "music/README" = "README") /\
  (main_track "music/song.tar.gz" +:+ "." +:+ main_trackext "music/song.tar.gz"
     = "song.tar.gz" /\
   Pathlib.rfind "." (main_trackext "music/song.tar.gz") = None).
Proof.
  split.
  - apply (proj1 (main_track_trackext "music/README")). reflexivity.
  - apply (proj2 (main_track_trackext "music/song.tar.gz")).
    vm_compute. discriminate.
Defined.

(** Witness for X24: an upper-case extension. *)
Lemma main_trackext_suffix_witness :
  Pathlib.suffix (Pathlib.of_string "music/Song.WAV")
    = "." +:+ main_trackext "music/Song.WAV".
Proof.
  apply main_trackext_suffix. vm_compute. discriminate.
Defined.

Section Script.
Context {F : Type}.
Variable get_model : string -> option string -> res (option Model).
Variable prevent_clip : Tensor2 F -> ClipMode -> res (Tensor2 F).

Lemma reachable_samplerate self :
  reachable get_model self -> _samplerate self = samplerate (_model self).
Proof.
  induction 1 as [model repo p self H|p self H IH].
  - apply init_inv in H as (m & Hm & ->).
    destruct (update_parameter_fields p
                {| _name := model; _repo := repo; _model := m;
                   _audio_channels := audio_channels m;
                   _samplerate := samplerate m; attrs := ∅ |})
      as (_ & _ & -> & _ & ->).
    reflexivity.
  - destruct (update_parameter_fields p self) as (_ & _ & -> & _ & ->).
    exact IH.
Qed.


End Script.


(** ** Silence in binary32 *)

Section Silence.
Implicit Types (a b y : spec_float) (l : Tensor1 spec_float).
Implicit Types (wav : Tensor2 spec_float).

Lemma zero_or_nan_add a b :
  zero_or_nan a -> zero_or_nan b -> zero_or_nan (fadd a b).
Proof. by destruct a as [[]|[]| |], b as [[]|[]| |]. Qed.

Lemma zero_or_nan_sub a b :
  zero_or_nan a -> zero_or_nan b -> zero_or_nan (fsub a b).
Proof. by destruct a as [[]|[]| |], b as [[]|[]| |]. Qed.

Lemma zero_or_nan_mul a b :
  zero_or_nan a -> zero_or_nan b -> zero_or_nan (fmul a b).
Proof. by destruct a as [[]|[]| |], b as [[]|[]| |]. Qed.

(** A zero or NaN divided by any float is a zero or NaN. *)
Lemma zero_or_nan_div a y : zero_or_nan a -> zero_or_nan (fdiv a y).
Proof. by destruct a as [[]|[]| |], y as [[]|[]| |]. Qed.

Lemma zero_or_nan_sqrt a : zero_or_nan a -> zero_or_nan (fsqrt a).
Proof. by destruct a as [[]|[]| |]. Qed.

(** A zero or NaN divided by a zero or NaN is NaN. *)
Lemma zero_or_nan_div_nan a b :
  zero_or_nan a -> zero_or_nan b -> fdiv a b = S754_nan.
Proof. by destruct a as [[]|[]| |], b as [[]|[]| |]. Qed.

Lemma zero_or_nan_fold l a :
  Forall zero_or_nan l -> zero_or_nan a -> zero_or_nan (fold_left fadd l a).
Proof.
  intros Hl. revert a. induction Hl as [|x l Hx Hl IH]; intros a Ha; [done|].
  simpl. apply IH. by apply zero_or_nan_add.
Qed.

Lemma zero_or_nan_mean l : Forall zero_or_nan l -> zero_or_nan (mean l).
Proof.
  intros Hl. unfold mean, sum. apply zero_or_nan_div.
  by apply zero_or_nan_fold.
Qed.

Lemma zero_or_nan_std l : Forall zero_or_nan l -> zero_or_nan (std l).
Proof.
  intros Hl. unfold std, sum.
  apply zero_or_nan_sqrt, zero_or_nan_div, zero_or_nan_fold; [|done].
  apply Forall_map. eapply Forall_impl; [exact Hl|]. intros x Hx. simpl.
  apply zero_or_nan_mul; apply zero_or_nan_sub; try done;
    by apply zero_or_nan_mean.
Qed.

Lemma silent_zero_or_nan wav :
  silent wav -> Forall (Forall zero_or_nan) wav.
Proof.
  intros H. eapply Forall_impl; [exact H|]. intros row Hrow. simpl.
  eapply Forall_impl; [exact Hrow|]. by intros x [sign ->].
Qed.

Lemma zero_or_nan_nth l j : Forall zero_or_nan l -> zero_or_nan (nth j l fzero).
Proof.
  intros Hl. revert j. induction Hl as [|x l Hx Hl IH]; intros [|j]; simpl;
    auto.
Qed.

Lemma zero_or_nan_mean_dim0 wav :
  Forall (Forall zero_or_nan) wav -> Forall zero_or_nan (mean_dim0 wav).
Proof.
  intros H. unfold mean_dim0. apply Forall_map, Forall_forall. intros j _.
  simpl. apply zero_or_nan_mean. unfold column. apply Forall_map.
  eapply Forall_impl; [exact H|]. intros row Hrow. simpl.
  by apply zero_or_nan_nth.
Qed.

(** Normalizing silence gives NaN everywhere. *)
Lemma silent_normalized wav :
  silent wav ->
  all_nan (map (map (fun x => fdiv (fsub x (mean (mean_dim0 wav)))
                                (std (mean_dim0 wav)))) wav).
Proof.
  intros Hsilent. pose proof (silent_zero_or_nan wav Hsilent) as Hzn.
  pose proof (zero_or_nan_mean_dim0 wav Hzn) as Href.
  unfold all_nan. apply Forall_map.
  eapply Forall_impl; [exact Hzn|]. intros row Hrow. simpl.
  apply Forall_map. eapply Forall_impl; [exact Hrow|]. intros x Hx. simpl.
  apply zero_or_nan_div_nan.
  - apply zero_or_nan_sub; [done|]. by apply zero_or_nan_mean.
  - by apply zero_or_nan_std.
Qed.

End Silence.

(** X17: in binary32, on a waveform of any shape every sample of which
    is a zero, every sample of the mix that [separate_tensor] hands to
    the strategy is NaN, and so is every sample of the wave it returns,
    whatever the strategy returns. *)
Theorem separate_tensor_silence
    (apply_model : ApplyModelCall spec_float -> res (Tensor4 spec_float))
    (self : Separator) (wav : Tensor2 spec_float) :
  let normalized :=
    map (map (fun x => fdiv (fsub x (mean (mean_dim0 wav)))
                         (std (mean_dim0 wav)))) wav in
  silent wav ->
  all_nan normalized /\
  (forall call, apply_model_call self normalized = Ok call ->
                am_mix call = [normalized]) /\
  (forall first d, separate_tensor apply_model self wav = Ok (first, d) ->
                   first = normalized).
Proof.
  intros normalized Hsilent. split; [by apply silent_normalized|]. split.
  - intros call. unfold apply_model_call.
    repeat match goal with
           | |- context [bind ?r _] => destruct r; simpl; [|done]
           end.
    by intros [= <-].
  - intros first d. rewrite separate_tensor_unfold. cbv zeta.
    fold normalized.
    destruct (apply_model_call self normalized) as [call|e]; simpl; [|done].
    destruct (apply_model call) as [[|out0 rest]|e]; simpl; try done.
    by intros [= <- _].
Qed.

(** Witness for X17: two silent channels of three frames, one of them
    of negative zeros. *)
Lemma separate_tensor_silence_witness :
  all_nan
    (map (map (fun x =>
                 fdiv (fsub x (mean (mean_dim0 silence_stereo32)))
                      (std (mean_dim0 silence_stereo32))))
         silence_stereo32).
Proof.
  apply (separate_tensor_silence identity_strategy stub_separator).
  repeat constructor; by eexists.
Defined.
